(** * Budget Planner API: the schemas and the HTTP handlers

    A shallow embedding of [schemas.py] and [main.py].

    - Python dictionaries are finite maps from field names to values.
    - A Python [str] is the byte string of its UTF-8 encoding.
    - A handler runs in a state-and-exception monad over the process state:
      the document store behind the global [db], the environment, and a
      record of the calls made to the storage helpers.
    - The storage helpers [create_document] and [get_documents] come from the
      module [database], which is not among the sources; they are written
      from the description the specification gives of them.
    - The framework is there as far as the routes depend on it: it decodes
      the body or the query, answers a validation error by echoing the
      offending input, and renders every answer as JSON, which fails on a
      value that JSON cannot hold. *)

From Stdlib Require Import ZArith String Ascii.
From stdpp Require Import base option list gmap strings pretty.

Set Warnings "-clear-no-such-hyp".
Set Default Proof Using "Type".

Local Open Scope string_scope.
Local Open Scope Z_scope.

(** ** Python values *)

(** [datetime.date]. *)
Record date := mkdate { date_year : Z; date_month : Z; date_day : Z }.

(** A Python [float]: a NaN, an infinity, or the finite number [m * 2^e]. *)
Inductive pyfloat :=
  | Fnan
  | Finf (negative : bool)
  | Ffin (m e : Z).

(** [x > 0] on floats; every comparison with a NaN is false. *)
Definition float_gt0 (x : pyfloat) : bool :=
  match x with
  | Fnan => false
  | Finf negative => negb negative
  | Ffin m _ => 0 <? m
  end.

(** [x >= 0]. *)
Definition float_ge0 (x : pyfloat) : bool :=
  match x with
  | Fnan => false
  | Finf negative => negb negative
  | Ffin m _ => 0 <=? m
  end.

(** [x <= 0]. *)
Definition float_le0 (x : pyfloat) : bool :=
  match x with
  | Fnan => false
  | Finf negative => negative
  | Ffin m _ => m <=? 0
  end.

(** A float that is a number. *)
Definition float_finite (x : pyfloat) : bool :=
  match x with
  | Ffin _ _ => true
  | _ => false
  end.

(** The values a document field holds.  A [datetime.datetime] is kept as the
    text its [isoformat()] returns, a store identifier as its number. *)
Inductive value :=
  | VNone
  | VInt (z : Z)
  | VFloat (x : pyfloat)
  | VStr (s : string)
  | VDate (d : date)
  | VDatetime (iso : string)
  | VObjectId (n : N).

#[global] Instance date_eq_dec : EqDecision date.
Proof. solve_decision. Defined.
#[global] Instance pyfloat_eq_dec : EqDecision pyfloat.
Proof. solve_decision. Defined.
#[global] Instance value_eq_dec : EqDecision value.
Proof. solve_decision. Defined.

(** A Python [dict] with string keys: a document, a filter. *)
Abbreviation document := (gmap string value).

(** Truth value of a [str]: the empty string is false. *)
Definition truthy (s : string) : bool := negb (s =? "")%string.

(** [Optional[str]] as a value. *)
Definition of_optional_str (o : option string) : value :=
  match o with
  | Some s => VStr s
  | None => VNone
  end.

(** ** schemas.py *)

(** [Literal["expense", "income"]]. *)
Inductive TxType := expense | income.

Definition TxType_str (t : TxType) : string :=
  match t with
  | expense => "expense"
  | income => "income"
  end.

Definition TxType_of_str (s : string) : option TxType :=
  if (s =? "expense")%string then Some expense
  else if (s =? "income")%string then Some income
  else None.

Record Category := mkCategory {
  Category_name : string;
  Category_color : option string
}.

Record Budget := mkBudget {
  Budget_month : Z;
  Budget_year : Z;
  Budget_amount : pyfloat;
  Budget_category : option string
}.

Record Transaction := mkTransaction {
  Transaction_type : TxType;
  Transaction_amount : pyfloat;
  Transaction_category : option string;
  Transaction_note : option string;
  Transaction_date : date
}.

(** What a request carries for one field: nothing, something that is not of
    the field's type, or a value of that type ([Given None] is a JSON null
    where the field is [Optional]). *)
Inductive raw (A : Type) :=
  | Missing
  | Malformed
  | Given (a : A).
Arguments Missing {A}.
Arguments Malformed {A}.
Arguments Given {A} a.

(** The outcome of decoding: the names of the offending fields, or the
    decoded record. *)
Definition decoded (A : Type) : Type := list string + A.

(** One [Field(default, constraint)]: [dflt = None] is the required [...]. *)
Definition Field {A B : Type} (fname : string) (dflt : option B)
    (conv : A -> option B) (r : raw A) : decoded B :=
  match r with
  | Missing =>
      match dflt with
      | Some b => inr b
      | None => inl [fname]
      end
  | Malformed => inl [fname]
  | Given a =>
      match conv a with
      | Some b => inr b
      | None => inl [fname]
      end
  end.

(** Decoding goes through every field and reports all the failures. *)
Definition and_field {A B : Type} (f : decoded (A -> B)) (x : decoded A) : decoded B :=
  match f, x with
  | inr g, inr a => inr (g a)
  | inl e1, inl e2 => inl (e1 ++ e2)%list
  | inl e1, inr _ => inl e1
  | inr _, inl e2 => inl e2
  end.

Infix "<&>" := and_field (at level 61, left associativity).

Definition constrained {A : Type} (ok : A -> bool) (a : A) : option A :=
  if ok a then Some a else None.

Definition ge_le (lo hi : Z) (z : Z) : bool := (lo <=? z) && (z <=? hi).

Record CategoryBody := mkCategoryBody {
  in_name : raw string;
  in_color : raw (option string)
}.

Record BudgetBody := mkBudgetBody {
  in_month : raw Z;
  in_year : raw Z;
  in_budget_amount : raw pyfloat;
  in_budget_category : raw (option string)
}.

Record TransactionBody := mkTransactionBody {
  in_type : raw string;
  in_amount : raw pyfloat;
  in_category : raw (option string);
  in_note : raw (option string);
  in_date : raw date
}.

Definition decode_Category (b : CategoryBody) : decoded Category :=
  inr mkCategory
    <&> Field "name" None Some (in_name b)
    <&> Field "color" (Some None) Some (in_color b).

Definition decode_Budget (b : BudgetBody) : decoded Budget :=
  inr mkBudget
    <&> Field "month" None (constrained (ge_le 1 12)) (in_month b)
    <&> Field "year" None (constrained (ge_le 2000 3000)) (in_year b)
    <&> Field "amount" None (constrained float_ge0) (in_budget_amount b)
    <&> Field "category" (Some None) Some (in_budget_category b).

Definition decode_Transaction (b : TransactionBody) : decoded Transaction :=
  inr mkTransaction
    <&> Field "type" (Some expense) TxType_of_str (in_type b)
    <&> Field "amount" None (constrained float_gt0) (in_amount b)
    <&> Field "category" (Some None) Some (in_category b)
    <&> Field "note" (Some None) Some (in_note b)
    <&> Field "date" None Some (in_date b).

(** [BaseModel]: a record that serialises to a dictionary. *)
Class BaseModel (A : Type) := { model_dump : A -> document }.

#[global] Instance Category_model : BaseModel Category := {
  model_dump c :=
    <["name" := VStr (Category_name c)]>
    (<["color" := of_optional_str (Category_color c)]> ∅)
}.

#[global] Instance Budget_model : BaseModel Budget := {
  model_dump b :=
    <["month" := VInt (Budget_month b)]>
    (<["year" := VInt (Budget_year b)]>
    (<["amount" := VFloat (Budget_amount b)]>
    (<["category" := of_optional_str (Budget_category b)]> ∅)))
}.

#[global] Instance Transaction_model : BaseModel Transaction := {
  model_dump t :=
    <["type" := VStr (TxType_str (Transaction_type t))]>
    (<["amount" := VFloat (Transaction_amount t)]>
    (<["category" := of_optional_str (Transaction_category t)]>
    (<["note" := of_optional_str (Transaction_note t)]>
    (<["date" := VDate (Transaction_date t)]> ∅))))
}.

(** ** The process state *)

(** An attribute of a Python object, as [hasattr] and [getattr] see it. *)
Inductive attr :=
  | AttrMissing
  | AttrValue (s : string)
  | AttrRaises (e : string).

(** Modelled from the spec: the object behind the global [db] of the missing
    module [database], a document store.  It has its [name] attribute, its
    collections with their documents in store order, the next identifier the
    store hands out, and the state of the server ([failure = Some e]: it is
    unreachable and every operation raises an exception of text [e]).  A
    reachable store can still reject a write: [write_error] gives the text
    of the error for a collection and a document.  The store order is the
    store's own: [position] gives the place, among the documents of a
    collection, where the store puts a new one. *)
Record Database := mkDatabase {
  name : attr;
  collections : gmap string (list document);
  next_id : N;
  failure : option string;
  write_error : string -> document -> option string;
  position : string -> list document -> nat
}.

(** A call to one of the two storage helpers. *)
Inductive call :=
  | CallCreate (collection_name : string) (data : document)
  | CallGet (collection_name : string) (filter_dict : document) (limit : Z).

(** [db] is [None] until the connection is initialised; [DATABASE_URL] is the
    environment variable; [calls] records the storage calls, oldest first. *)
Record world := mkworld {
  db : option Database;
  DATABASE_URL : option string;
  calls : list call
}.

Definition record_call (c : call) (w : world) : world :=
  mkworld (db w) (DATABASE_URL w) (calls w ++ [c])%list.

Definition with_db (d : Database) (w : world) : world :=
  mkworld (Some d) (DATABASE_URL w) (calls w).

(** The documents of a collection; a collection that was never written to is
    empty. *)
Definition documents_of (d : Database) (collection_name : string) : list document :=
  default [] (collections d !! collection_name).

(** ** State and exceptions *)

(** A computation over a state [S] returns a value or raises an [Exception],
    of which only [str(e)] is kept; the state changes made before the
    exception stay. *)
Definition M (S A : Type) : Type := S -> (string + A) * S.

#[global] Instance M_ret {S} : MRet (M S) := λ A a s, (inr a, s).

#[global] Instance M_bind {S} : MBind (M S) := λ A B k c s,
  match c s with
  | (inr a, s') => k a s'
  | (inl e, s') => (inl e, s')
  end.

Definition raise {S A} (e : string) : M S A := λ s, (inl e, s).

(** [try: c except Exception as e: h e]. *)
Definition try_except {S A} (c : M S A) (h : string -> M S A) : M S A := λ s,
  match c s with
  | (inr a, s') => (inr a, s')
  | (inl e, s') => h e s'
  end.

Definition modify {S} (f : S -> S) : M S unit := λ s, (inr tt, f s).

(** ** HTTP *)

Record HTTPException := mkHTTPException {
  exc_status_code : Z;
  exc_detail : string
}.

(** The dictionary [/test] builds. *)
Record diagnostics := mkdiagnostics {
  resp_backend : string;
  resp_database : string;
  resp_database_url : option string;
  resp_database_name : option string;
  resp_connection_status : string;
  resp_collections : list string
}.

(** What a handler returns, and what the framework answers on its own;
    [PlainText] is the body of the answer to an exception that leaves the
    application, which is no JSON. *)
Inductive json :=
  | JId (id : string)
  | JItems (items : list document)
  | JDiagnostics (r : diagnostics)
  | JDetail (detail : string)
  | JValidationError (fields : list string)
  | PlainText (text : string).

Record response := mkresponse {
  status_code : Z;
  content : json
}.

(** The answer to an exception that nothing in the application catches. *)
Definition internal_server_error : response :=
  mkresponse 500 (PlainText "Internal Server Error").

(** The JSON renderer takes no [NaN] and no infinity, and the encoder before
    it knows dates and datetimes but not store identifiers. *)
Definition renderable_value (v : value) : bool :=
  match v with
  | VFloat (Ffin _ _) => true
  | VFloat _ => false
  | VObjectId _ => false
  | _ => true
  end.

Definition renders (d : document) : Prop :=
  map_Forall (λ _ v, renderable_value v = true) d.

Definition renderable (j : json) : bool :=
  match j with
  | JItems items => bool_decide (Forall renders items)
  | _ => true
  end.

(** A handler's outcome as the framework turns it into a response.  What the
    handler returns is rendered after the handler is left, outside its
    [try]: when that fails the answer is a 500. *)
Definition respond (r : HTTPException + json) : response :=
  match r with
  | inr j => if renderable j then mkresponse 200 j else internal_server_error
  | inl exc => mkresponse (exc_status_code exc) (JDetail (exc_detail exc))
  end.

(** The answer to a request that fails decoding, when it can be rendered. *)
Definition unprocessable (fields : list string) : response :=
  mkresponse 422 (JValidationError fields).

(** A posted JSON object: its members read at the types of the schema, and
    the names of its members, declared or not, whose JSON text holds a [NaN]
    or an infinity. *)
Record posted (B : Type) := mkposted {
  members : B;
  nonfinite : list string
}.
Arguments mkposted {B} members nonfinite.
Arguments members {B} p.
Arguments nonfinite {B} p.

Definition is_missing {A} (r : raw A) : bool :=
  match r with
  | Missing => true
  | _ => false
  end.

(** A validation error echoes its input: the member for a member that is
    there, the whole object for a member that is missing. *)
Definition echoes_nonfinite (absent : string -> bool) (nonfinite : list string)
    (fname : string) : bool :=
  if absent fname then negb (bool_decide (nonfinite = []))
  else bool_decide (fname ∈ nonfinite).

(** The answer to a body that fails decoding: the validation error, or a 500
    when an echoed input cannot be rendered. *)
Definition reject (absent : string -> bool) (nonfinite : list string)
    (fields : list string) : response :=
  if existsb (echoes_nonfinite absent nonfinite) fields
  then internal_server_error
  else unprocessable fields.

(** The declared members that a body does not have. *)
Definition absent_Category (b : CategoryBody) (fname : string) : bool :=
  if (fname =? "name")%string then is_missing (in_name b)
  else if (fname =? "color")%string then is_missing (in_color b)
  else false.

Definition absent_Budget (b : BudgetBody) (fname : string) : bool :=
  if (fname =? "month")%string then is_missing (in_month b)
  else if (fname =? "year")%string then is_missing (in_year b)
  else if (fname =? "amount")%string then is_missing (in_budget_amount b)
  else if (fname =? "category")%string then is_missing (in_budget_category b)
  else false.

Definition absent_Transaction (b : TransactionBody) (fname : string) : bool :=
  if (fname =? "type")%string then is_missing (in_type b)
  else if (fname =? "amount")%string then is_missing (in_amount b)
  else if (fname =? "category")%string then is_missing (in_category b)
  else if (fname =? "note")%string then is_missing (in_note b)
  else if (fname =? "date")%string then is_missing (in_date b)
  else false.

(** [try: c except Exception as e: raise h e], the shape of every handler
    under [/api]. *)
Definition or_raise {S A} (c : M S A) (h : string -> HTTPException)
    : S -> (HTTPException + A) * S := λ s,
  match c s with
  | (inr a, s') => (inr a, s')
  | (inl e, s') => (inl (h e), s')
  end.

(** Query parameters in the order of the URL. *)
Abbreviation query := (list (string * string)).

(** The value of a scalar parameter: of several with one name the last. *)
Fixpoint query_get (pname : string) (q : query) : option string :=
  match q with
  | [] => None
  | (k, v) :: q' =>
      match query_get pname q' with
      | Some v' => Some v'
      | None => if (k =? pname)%string then Some v else None
      end
  end.

Definition param (pname : string) (q : query) : raw string :=
  match query_get pname q with
  | Some s => Given s
  | None => Missing
  end.

(** [pattern="^(expense|income)$"]. *)
Definition expense_or_income (s : string) : bool :=
  (s =? "expense")%string || (s =? "income")%string.

(** A byte that continues a character of a UTF-8 text. *)
Definition is_continuation (c : ascii) : bool :=
  let n := nat_of_ascii c in (128 <=? n)%nat && (n <? 192)%nat.

(** [len(s)]: the characters of a text. *)
Fixpoint char_length (s : string) : nat :=
  match s with
  | EmptyString => O
  | String c s' =>
      if is_continuation c then char_length s' else S (char_length s')
  end.

(** [s[:n]]: the first [n] characters of a text, each with all its bytes. *)
Fixpoint take_chars (n : nat) (s : string) : string :=
  match s with
  | EmptyString => EmptyString
  | String c s' =>
      if is_continuation c then String c (take_chars n s')
      else
        match n with
        | O => EmptyString
        | S n' => String c (take_chars n' s')
        end
  end.

(** [s[:80]]. *)
Definition slice80 (s : string) : string := take_chars 80 s.

(** ** One reading of the two conversions

    The handlers are stated over any conversion of query text to [int] and any
    [str]; the worked examples fix these two. *)

Definition digit (c : ascii) : option Z :=
  let n := Z.of_nat (nat_of_ascii c) in
  if ge_le 48 57 n then Some (n - 48) else None.

Fixpoint digits (acc : Z) (s : string) : option Z :=
  match s with
  | EmptyString => Some acc
  | String c s' => d ← digit c; digits (10 * acc + d) s'
  end.

(** Decimal digits with an optional minus sign. *)
Definition decimal (s : string) : option Z :=
  match s with
  | EmptyString => None
  | String "-" EmptyString => None
  | String "-" s' => Z.opp <$> digits 0 s'
  | _ => digits 0 s
  end.

(** The text of a value: a store identifier by its number. *)
Definition text_of (v : value) : string :=
  match v with
  | VObjectId n => pretty n
  | VInt z => pretty z
  | VStr s => s
  | VDatetime iso => iso
  | _ => "None"
  end.

(** ** Sample requests and stores *)

Definition a_date : date := mkdate 2024 1 5.

(** An income of 5, with no category and no note. *)
Definition income_of_5 : TransactionBody :=
  mkTransactionBody (Given "income") (Given (Ffin 5 0)) Missing Missing
    (Given a_date).

(** The same with an amount of 0. *)
Definition income_of_0 : TransactionBody :=
  mkTransactionBody (Given "income") (Given (Ffin 0 0)) Missing Missing
    (Given a_date).

(** A budget for a month 13. *)
Definition budget_month_13 : BudgetBody :=
  mkBudgetBody (Given 13) (Given 2024) (Given (Ffin 100 0)) Missing.

(** A category with no color. *)
Definition rent : CategoryBody := mkCategoryBody (Given "Rent") Missing.

(** A stored income of 1 and a stored expense of 2. *)
Definition stored_income (n : N) : document :=
  <["_id" := VObjectId n]>
    (model_dump (mkTransaction income (Ffin 1 0) None None a_date)).

Definition stored_expense (n : N) : document :=
  <["_id" := VObjectId n]>
    (model_dump (mkTransaction expense (Ffin 2 0) None None a_date)).

(** A store that takes every write and puts a new document last. *)
Definition a_store (colls : gmap string (list document)) (next : N)
    (failure : option string) : Database :=
  mkDatabase (AttrValue "budget") colls next failure
    (λ _ _, None) (λ _ docs, length docs).

(** A reachable store with the given collections. *)
Definition a_world (colls : gmap string (list document)) (next : N) : world :=
  mkworld (Some (a_store colls next None)) (Some "mongodb://localhost") [].

Definition empty_world : world := a_world ∅ 0.

(** One income and one expense. *)
Definition small_world : world :=
  a_world {["transaction" := [stored_income 0; stored_expense 1]]} 2.

(** A budget of 100 for January 2024, with no category. *)
Definition january_budget : BudgetBody :=
  mkBudgetBody (Given 1) (Given 2024) (Given (Ffin 100 0)) Missing.

(** A store whose server does not answer. *)
Definition unreachable_world : world :=
  mkworld (Some (a_store ∅ 0 (Some "timed out"))) None [].

(** A body with no [NaN] and no infinity in it. *)
Definition finite_body {B} (b : B) : posted B := mkposted b [].

(** An income of plus infinity, an income of minus infinity and a budget for
    a month 13 with a [NaN] amount, each written as the JSON literal. *)
Definition income_of_infinity : posted TransactionBody :=
  mkposted
    (mkTransactionBody (Given "income") (Given (Finf false)) Missing Missing
       (Given a_date))
    ["amount"].

Definition income_of_minus_infinity : posted TransactionBody :=
  mkposted
    (mkTransactionBody (Given "income") (Given (Finf true)) Missing Missing
       (Given a_date))
    ["amount"].

Definition budget_month_13_nan : posted BudgetBody :=
  mkposted (mkBudgetBody (Given 13) (Given 2024) (Given Fnan) Missing)
    ["amount"].

(** A decidable proposition, by evaluation. *)
Ltac by_evaluation := apply (bool_decide_unpack _); vm_compute; exact I.

(** An answer that is said to be a 422 and is not, by its status. *)
Ltac not_rejected H :=
  apply (f_equal (λ r : response * world, status_code r.1)) in H;
  vm_compute in H; discriminate H.

(** The dictionary of a record renders when each of its values does. *)
Ltac renders_dump :=
  unfold renders; simpl; repeat apply map_Forall_insert_2;
  lazymatch goal with
  | |- map_Forall _ _ => apply map_Forall_empty
  | |- _ => simpl
  end.

Section Api.

(** The framework's conversion of a query string to an [int] ([None]: the
    text is no integer), and Python's [str] on a stored value. *)
Variable int_of_str : string -> option Z.
Variable str : value -> string.

(** Membership goals, solved without the section's variables. *)
Ltac in_list := try clear int_of_str; try clear str; set_solver.

(** ** The storage helpers *)

(** Modelled from the spec: the text of the storage error of a helper that is
    called while [db] is [None]; the specification does not give it. *)
Definition not_available : string := "Database not available".

(** A filter matches a document when each field of the filter is in the
    document with an equal value. *)
Definition matches (filter_dict d : document) : Prop :=
  map_Forall (λ k v, d !! k = Some v) filter_dict.

#[global] Instance matches_dec filter_dict d : Decision (matches filter_dict d).
Proof. unfold matches. apply _. Defined.

(** A list with one more element at the place [i], or last when [i] is past
    the end. *)
Definition insert_at {A} (i : nat) (x : A) (l : list A) : list A :=
  (take i l ++ x :: drop i l)%list.

(** Modelled from the spec: [create_document(collection_name, record)] of the
    missing module [database].  It serialises the validated record, always
    inserts it as a new document of the collection, under a fresh store
    identifier and at the place the store chooses, and returns that
    identifier as text; it fails with a storage error when the store is
    unreachable or rejects the write. *)
Definition create_document {A} `{BaseModel A} (collection_name : string) (data : A)
    : M world string := λ w,
  let w := record_call (CallCreate collection_name (model_dump data)) w in
  match db w with
  | None => (inl not_available, w)
  | Some d =>
      match failure d with
      | Some e => (inl e, w)
      | None =>
          match write_error d collection_name (model_dump data) with
          | Some e => (inl e, w)
          | None =>
              let oid := VObjectId (next_id d) in
              let doc := <["_id" := oid]> (model_dump data) in
              let old := documents_of d collection_name in
              let docs := insert_at (position d collection_name old) doc old in
              let d' := mkDatabase (name d)
                          (<[collection_name := docs]> (collections d))
                          (N.succ (next_id d)) (failure d) (write_error d)
                          (position d) in
              (inr (str oid), with_db d' w)
          end
      end
  end.

(** Modelled from the spec: [get_documents(collection_name, filter, limit)]
    of the missing module [database].  It returns at most [limit] documents
    of the collection that match the filter exactly, in store order, and an
    empty list when none matches; it fails with a storage error when the
    store is unreachable. *)
Definition get_documents (collection_name : string) (filter_dict : document)
    (limit : Z) : M world (list document) := λ w,
  let w := record_call (CallGet collection_name filter_dict limit) w in
  match db w with
  | None => (inl not_available, w)
  | Some d =>
      match failure d with
      | Some e => (inl e, w)
      | None =>
          (inr (take (Z.to_nat limit)
                  (filter (matches filter_dict) (documents_of d collection_name))),
           w)
      end
  end.

(** [db.list_collection_names()]. *)
Definition list_collection_names {S} (d : Database) : M S (list string) :=
  match failure d with
  | Some e => raise e
  | None => mret (map_to_list (collections d)).*1
  end.

(** [hasattr(db, "name")]: an exception other than [AttributeError] goes
    through. *)
Definition hasattr_name {S} (d : Database) : M S bool :=
  match name d with
  | AttrMissing => mret false
  | AttrValue _ => mret true
  | AttrRaises e => raise e
  end.

(** [db.name]. *)
Definition getattr_name {S} (d : Database) : M S string :=
  match name d with
  | AttrMissing => raise "'Database' object has no attribute 'name'"
  | AttrValue s => mret s
  | AttrRaises e => raise e
  end.

(** ** main.py *)

Definition set_database (s : string) : M diagnostics unit :=
  modify (λ r, mkdiagnostics (resp_backend r) s (resp_database_url r)
                 (resp_database_name r) (resp_connection_status r)
                 (resp_collections r)).

Definition set_database_url (s : string) : M diagnostics unit :=
  modify (λ r, mkdiagnostics (resp_backend r) (resp_database r) (Some s)
                 (resp_database_name r) (resp_connection_status r)
                 (resp_collections r)).

Definition set_database_name (s : string) : M diagnostics unit :=
  modify (λ r, mkdiagnostics (resp_backend r) (resp_database r)
                 (resp_database_url r) (Some s) (resp_connection_status r)
                 (resp_collections r)).

Definition set_connection_status (s : string) : M diagnostics unit :=
  modify (λ r, mkdiagnostics (resp_backend r) (resp_database r)
                 (resp_database_url r) (resp_database_name r) s
                 (resp_collections r)).

Definition set_collections (l : list string) : M diagnostics unit :=
  modify (λ r, mkdiagnostics (resp_backend r) (resp_database r)
                 (resp_database_url r) (resp_database_name r)
                 (resp_connection_status r) l).

(** [os.getenv("DATABASE_URL")] as a condition. *)
Definition getenv_DATABASE_URL (w : world) : bool :=
  match DATABASE_URL w with
  | Some s => truthy s
  | None => false
  end.

(** [test_database], lines 28-56: the dictionary is filled in step by step,
    and what was filled in before an exception stays.  The result is the
    dictionary, or the exception that left the function. *)
Definition test_database (w : world) : string + diagnostics :=
  let response :=
    mkdiagnostics "✅ Running" "❌ Not Available" None None "Not Connected" [] in
  let body : M diagnostics unit :=
    try_except
      (match db w with
       | Some d =>
           set_database "✅ Available" ;;
           set_database_url
             (if getenv_DATABASE_URL w then "✅ Set" else "❌ Not Set") ;;
           database_name ←
             (has ← hasattr_name d;
              if has : bool then getattr_name d else mret "✅ Connected");
           set_database_name database_name ;;
           set_connection_status "Connected" ;;
           try_except
             (names ← list_collection_names d;
              set_collections (take 10 names) ;;
              set_database "✅ Connected & Working")
             (λ e, set_database ("⚠️ Connected but Error: " ++ slice80 e))
       | None => set_database "⚠️ Available but not initialized"
       end)
      (λ e, set_database ("❌ Error: " ++ slice80 e)) in
  match body response with
  | (inr _, response) => inr response
  | (inl e, _) => inl e
  end.

(** [GET /test]: an exception that leaves a handler is a 500. *)
Definition GET_test (w : world) : response * world :=
  match test_database w with
  | inr r => (respond (inr (JDiagnostics r)), w)
  | inl _ => (internal_server_error, w)
  end.

(** The conversion of [ObjectId] and [datetime] values that every list handler
    applies to each document: [_id] is popped and its text stored under [id],
    then each [datetime] value is replaced by its [isoformat()]. *)
Definition pop_id (d : document) : document :=
  match d !! "_id" with
  | Some v => <["id" := VStr (str v)]> (delete "_id" d)
  | None => d
  end.

Definition isoformat (v : value) : value :=
  match v with
  | VDatetime iso => VStr iso
  | _ => v
  end.

Definition serializable (d : document) : document := isoformat <$> pop_id d.

(** [filter_dict[k] = v] under a condition. *)
Definition set_if (cond : bool) (k : string) (v : value) (filter_dict : document)
    : document :=
  if cond then <[k := v]> filter_dict else filter_dict.

(** The truth value of an [Optional[str]]. *)
Definition truthy_opt (o : option string) : bool :=
  match o with
  | Some s => truthy s
  | None => false
  end.

(** [create_transaction], lines 80-86. *)
Definition create_transaction (payload : Transaction)
    : world -> (HTTPException + json) * world :=
  or_raise
    (tx_id ← create_document "transaction" payload;
     mret (JId tx_id))
    (mkHTTPException 500).

(** [list_transactions], lines 89-111. *)
Definition list_transactions (limit : Z) (category tx_type : option string)
    : world -> (HTTPException + json) * world :=
  or_raise
    (let filter_dict : document := ∅ in
     let filter_dict :=
       set_if (truthy_opt category) "category"
         (of_optional_str category) filter_dict in
     let filter_dict :=
       set_if (truthy_opt tx_type) "type" (of_optional_str tx_type) filter_dict in
     docs ← get_documents "transaction" filter_dict limit;
     mret (JItems (serializable <$> docs)))
    (mkHTTPException 500).

(** [create_budget], lines 118-124. *)
Definition create_budget (payload : Budget)
    : world -> (HTTPException + json) * world :=
  or_raise
    (bid ← create_document "budget" payload;
     mret (JId bid))
    (mkHTTPException 500).

(** [list_budgets], lines 127-146. *)
Definition list_budgets (month year : option Z) (category : option string)
    (limit : Z) : world -> (HTTPException + json) * world :=
  or_raise
    (let filter_dict : document := ∅ in
     let filter_dict :=
       match month with
       | Some m => <["month" := VInt m]> filter_dict
       | None => filter_dict
       end in
     let filter_dict :=
       match year with
       | Some y => <["year" := VInt y]> filter_dict
       | None => filter_dict
       end in
     let filter_dict :=
       match category with
       | Some c => <["category" := VStr c]> filter_dict
       | None => filter_dict
       end in
     docs ← get_documents "budget" filter_dict limit;
     mret (JItems (serializable <$> docs)))
    (mkHTTPException 500).

(** [create_category], lines 153-159. *)
Definition create_category (payload : Category)
    : world -> (HTTPException + json) * world :=
  or_raise
    (cid ← create_document "category" payload;
     mret (JId cid))
    (mkHTTPException 500).

(** [list_categories], lines 162-174. *)
Definition list_categories (limit : Z)
    : world -> (HTTPException + json) * world :=
  or_raise
    (docs ← get_documents "category" ∅ limit;
     mret (JItems (serializable <$> docs)))
    (mkHTTPException 500).

(** ** The routes

    The framework decodes the body or the query against the signature of the
    handler, answers 422 by itself when that fails, and calls the handler
    otherwise.  A query parameter carries the name of the handler's
    argument; parameters of other names are ignored.  A validation error
    for the query echoes text of the URL, which always renders. *)

Definition run (h : world -> (HTTPException + json) * world) (w : world)
    : response * world :=
  let (r, w') := h w in (respond r, w').

Definition POST_api_transactions (p : posted TransactionBody) (w : world)
    : response * world :=
  match decode_Transaction (members p) with
  | inl fields =>
      (reject (absent_Transaction (members p)) (nonfinite p) fields, w)
  | inr payload => run (create_transaction payload) w
  end.

Definition POST_api_budgets (p : posted BudgetBody) (w : world)
    : response * world :=
  match decode_Budget (members p) with
  | inl fields => (reject (absent_Budget (members p)) (nonfinite p) fields, w)
  | inr payload => run (create_budget payload) w
  end.

Definition POST_api_categories (p : posted CategoryBody) (w : world)
    : response * world :=
  match decode_Category (members p) with
  | inl fields =>
      (reject (absent_Category (members p)) (nonfinite p) fields, w)
  | inr payload => run (create_category payload) w
  end.

(** An [int] parameter with a constraint. *)
Definition int_param (ok : Z -> bool) (s : string) : option Z :=
  z ← int_of_str s; constrained ok z.

(** An [Optional] parameter that was given. *)
Definition given {A} (a : A) : option (option A) := Some (Some a).

(** The arguments of [list_transactions]:
    [limit: int = Query(50, ge=1, le=200)], [category: Optional[str] = None],
    [tx_type: Optional[str] = Query(None, pattern="^(expense|income)$")]. *)
Definition decode_list_transactions (q : query)
    : decoded (Z * option string * option string) :=
  inr (λ limit category tx_type, (limit, category, tx_type))
    <&> Field "limit" (Some 50) (int_param (ge_le 1 200)) (param "limit" q)
    <&> Field "category" (Some None) given (param "category" q)
    <&> Field "tx_type" (Some None)
          (λ s, if expense_or_income s then given s else None)
          (param "tx_type" q).

Definition GET_api_transactions (q : query) (w : world) : response * world :=
  match decode_list_transactions q with
  | inl fields => (unprocessable fields, w)
  | inr (limit, category, tx_type) =>
      run (list_transactions limit category tx_type) w
  end.

(** The arguments of [list_budgets]: [month: Optional[int] = None],
    [year: Optional[int] = None], [category: Optional[str] = None],
    [limit: int = 100]. *)
Definition decode_list_budgets (q : query)
    : decoded (option Z * option Z * option string * Z) :=
  inr (λ month year category limit, (month, year, category, limit))
    <&> Field "month" (Some None) (λ s, Some <$> int_of_str s) (param "month" q)
    <&> Field "year" (Some None) (λ s, Some <$> int_of_str s) (param "year" q)
    <&> Field "category" (Some None) given (param "category" q)
    <&> Field "limit" (Some 100) int_of_str (param "limit" q).

Definition GET_api_budgets (q : query) (w : world) : response * world :=
  match decode_list_budgets q with
  | inl fields => (unprocessable fields, w)
  | inr (month, year, category, limit) =>
      run (list_budgets month year category limit) w
  end.

(** The argument of [list_categories]: [limit: int = 100]. *)
Definition decode_list_categories (q : query) : decoded Z :=
  Field "limit" (Some 100) int_of_str (param "limit" q).

Definition GET_api_categories (q : query) (w : world) : response * world :=
  match decode_list_categories q with
  | inl fields => (unprocessable fields, w)
  | inr limit => run (list_categories limit) w
  end.

(** ** Reading a response *)

(** The documents of a list response. *)
Definition items_of (r : response) : list document :=
  match content r with
  | JItems items => items
  | _ => []
  end.

(** Decoding fails and names the field. *)
Definition rejects {A} (fname : string) (r : decoded A) : Prop :=
  ∃ fields, r = inl fields ∧ fname ∈ fields.

(** The filter [list_transactions] builds. *)
Definition transactions_filter (category tx_type : option string) : document :=
  set_if (truthy_opt tx_type) "type" (of_optional_str tx_type)
    (set_if (truthy_opt category) "category" (of_optional_str category) ∅).

(** What the store holds in a collection, or the error every helper meets. *)
Definition stored (collection_name : string) (w : world) : string + list document :=
  match db w with
  | None => inl not_available
  | Some d =>
      match failure d with
      | Some e => inl e
      | None => inr (documents_of d collection_name)
      end
  end.

(** The documents a list route finds: the first [limit] of the collection
    that match the filter, converted. *)
Definition listed (filter_dict : document) (limit : Z) (docs : list document)
    : list document :=
  serializable <$> take (Z.to_nat limit) (filter (matches filter_dict) docs).

(** The answer of a list route once its arguments are decoded. *)
Definition listing (collection_name : string) (filter_dict : document)
    (limit : Z) (w : world) : response * world :=
  (match stored collection_name w with
   | inl e => mkresponse 500 (JDetail e)
   | inr docs => respond (inr (JItems (listed filter_dict limit docs)))
   end,
   record_call (CallGet collection_name filter_dict limit) w).

(** The error with which the store refuses a document, if it does. *)
Definition write_refused (collection_name : string) (data : document)
    (w : world) : option string :=
  d ← db w; write_error d collection_name data.

(** The outcome of a create route on the collection [collection_name], for
    a body that decodes to [d] and has the non-finite members [nonfinite],
    from the state [w].  A body that fails decoding leaves the state alone;
    it is answered 422, or 500 when the validation error cannot be
    rendered, which takes a non-finite member.  Otherwise the dictionary of
    the record goes to [create_document], once; a storage error, be the
    store unreachable or the write refused, is answered 500 with its text
    and the store stays; else the answer is 200 with the text of the new
    identifier, and the collection has the record, under that identifier,
    somewhere among the documents it had. *)
Definition create_outcome {A} `{BaseModel A} (collection_name : string)
    (nonfinite : list string) (d : decoded A) (w : world)
    (r : response * world) : Prop :=
  match d with
  | inl fields =>
      r.2 = w
      ∧ (r.1 = unprocessable fields ∨ r.1 = internal_server_error)
      ∧ (nonfinite = [] -> r.1 = unprocessable fields)
  | inr a =>
      calls r.2 = (calls w ++ [CallCreate collection_name (model_dump a)])%list
      ∧ match stored collection_name w with
        | inl e => r.1 = mkresponse 500 (JDetail e) ∧ db r.2 = db w
        | inr docs =>
            match write_refused collection_name (model_dump a) w with
            | Some e => r.1 = mkresponse 500 (JDetail e) ∧ db r.2 = db w
            | None =>
                ∃ oid i,
                  r.1 = mkresponse 200 (JId (str oid))
                  ∧ stored collection_name r.2
                    = inr (insert_at i (<["_id" := oid]> (model_dump a)) docs)
            end
        end
  end.

(** The outcome of a list route on the collection [collection_name] once its
    query is decoded.  One [get_documents] call on that collection is made
    and nothing else changes; a storage error is answered 500 with its text;
    else the items found are conversions of documents of the collection, and
    the answer is 200 with them when they all render and 500 when one does
    not. *)
Definition list_outcome (collection_name : string) (w : world)
    (r : response * world) : Prop :=
  (∃ filter_dict limit,
     r.2 = record_call (CallGet collection_name filter_dict limit) w)
  ∧ match stored collection_name w with
    | inl e => r.1 = mkresponse 500 (JDetail e)
    | inr docs =>
        ∃ items,
          Forall (λ d, ∃ d', d' ∈ docs ∧ d = serializable d') items
          ∧ ((Forall renders items ∧ r.1 = mkresponse 200 (JItems items))
             ∨ (¬ Forall renders items ∧ r.1 = internal_server_error))
    end.

(** The filter [list_budgets] builds. *)
Definition budgets_filter (month year : option Z) (category : option string)
    : document :=
  let filter_dict : document := ∅ in
  let filter_dict :=
    match month with
    | Some m => <["month" := VInt m]> filter_dict
    | None => filter_dict
    end in
  let filter_dict :=
    match year with
    | Some y => <["year" := VInt y]> filter_dict
    | None => filter_dict
    end in
  match category with
  | Some c => <["category" := VStr c]> filter_dict
  | None => filter_dict
  end.

(** ** Decoding *)

Lemma rejects_and_l {A B} fname (f : decoded (A -> B)) (x : decoded A) :
  rejects fname f -> rejects fname (f <&> x).
Proof.
  intros (fields & -> & Hin). destruct x as [e2 | a]; simpl.
  - exists (fields ++ e2)%list. split; [done | in_list].
  - by exists fields.
Qed.

Lemma rejects_and_r {A B} fname (f : decoded (A -> B)) (x : decoded A) :
  rejects fname x -> rejects fname (f <&> x).
Proof.
  intros (fields & -> & Hin). destruct f as [e1 | g]; simpl.
  - exists (e1 ++ fields)%list. split; [done | in_list].
  - by exists fields.
Qed.

Lemma Field_rejects {A B} fname dflt (conv : A -> option B) (a : A) :
  conv a = None -> rejects fname (Field fname dflt conv (Given a)).
Proof. intros Hc. exists [fname]. simpl. rewrite Hc. split; [done | in_list]. Qed.

Lemma and_field_inr {A B} (f : decoded (A -> B)) (x : decoded A) (b : B) :
  f <&> x = inr b -> ∃ g a, f = inr g ∧ x = inr a ∧ b = g a.
Proof. destruct f, x; simpl; intros; simplify_eq; eauto. Qed.

Lemma float_le0_not_gt0 (x : pyfloat) : float_le0 x = true -> float_gt0 x = false.
Proof.
  destruct x as [| [] | m e]; simpl; try done.
  intros H%Z.leb_le. apply Z.ltb_ge. done.
Qed.

Lemma reject_cases absent nonfinite fields :
  reject absent nonfinite fields = unprocessable fields
  ∨ reject absent nonfinite fields = internal_server_error.
Proof. unfold reject. destruct (existsb _ _); eauto. Qed.

Lemma reject_finite absent fields :
  reject absent [] fields = unprocessable fields.
Proof.
  unfold reject.
  assert (existsb (echoes_nonfinite absent []) fields = false) as ->; [| done].
  induction fields as [| f fields IH]; [done |]. simpl. rewrite IH.
  unfold echoes_nonfinite. by destruct (absent f).
Qed.

Lemma reject_echo absent nonfinite fields fname :
  fname ∈ fields ->
  absent fname = false ->
  fname ∈ nonfinite ->
  reject absent nonfinite fields = internal_server_error.
Proof.
  intros Hin Ha Hnf. unfold reject.
  assert (existsb (echoes_nonfinite absent nonfinite) fields = true) as ->;
    [| done].
  apply existsb_exists. exists fname. split; [by apply list_elem_of_In |].
  unfold echoes_nonfinite. rewrite Ha. by apply bool_decide_eq_true.
Qed.

(** C2, as the code has it.  A transaction whose amount is less than or equal
    to 0 fails decoding on [amount], and the process state is the one before
    the request: no storage helper was called and no document was created.
    The answer is the validation error when the body holds no [NaN] and no
    infinity; when the amount itself is written as such a literal, the
    validation error cannot be rendered and the answer is a 500. *)
Theorem nonpositive_amount_rejected (p : posted TransactionBody) (x : pyfloat)
    (w : world) :
  in_amount (members p) = Given x ->
  float_le0 x = true ->
  ∃ resp fields,
    POST_api_transactions p w = (resp, w)
    ∧ decode_Transaction (members p) = inl fields
    ∧ "amount" ∈ fields
    ∧ (resp = unprocessable fields ∨ resp = internal_server_error)
    ∧ (nonfinite p = [] -> resp = unprocessable fields)
    ∧ ("amount" ∈ nonfinite p -> resp = internal_server_error).
Proof.
  intros Hb Hx.
  assert (rejects "amount" (decode_Transaction (members p)))
    as (fields & Hd & Hin).
  { unfold decode_Transaction. do 3 apply rejects_and_l. apply rejects_and_r.
    rewrite Hb. apply Field_rejects. unfold constrained.
    by rewrite (float_le0_not_gt0 x Hx). }
  eexists. exists fields. unfold POST_api_transactions. rewrite Hd.
  split; [reflexivity |]. split; [done |]. split; [done |].
  split; [apply reject_cases |]. split.
  - intros ->. apply reject_finite.
  - intros Hnf. apply (reject_echo _ _ _ "amount"); [done | | done].
    unfold absent_Transaction; simpl. by rewrite Hb.
Qed.

(** C3, as the code has it.  A budget whose month is outside 1-12 or whose
    year is outside 2000-3000 fails decoding on the offending field, and the
    process state is the one before the request, so no document was
    created.  The answer is the validation error when the body holds no
    [NaN] and no infinity, and the validation error or a 500 otherwise. *)
Theorem budget_month_year_rejected (p : posted BudgetBody) (w : world) :
  let month_out := ∃ m, in_month (members p) = Given m ∧ ¬ (1 <= m <= 12) in
  let year_out :=
    ∃ y, in_year (members p) = Given y ∧ ¬ (2000 <= y <= 3000) in
  month_out ∨ year_out ->
  ∃ resp fields,
    POST_api_budgets p w = (resp, w)
    ∧ decode_Budget (members p) = inl fields
    ∧ (month_out -> "month" ∈ fields)
    ∧ (year_out -> "year" ∈ fields)
    ∧ (resp = unprocessable fields ∨ resp = internal_server_error)
    ∧ (nonfinite p = [] -> resp = unprocessable fields).
Proof.
  intros month_out year_out Hout.
  assert (month_out -> rejects "month" (decode_Budget (members p))) as Hm.
  { intros (m & Hb & Hr). unfold decode_Budget.
    do 3 apply rejects_and_l. apply rejects_and_r.
    rewrite Hb. apply Field_rejects. unfold constrained, ge_le.
    destruct (_ && _) eqn:E; [| done].
    apply andb_true_iff in E as [?%Z.leb_le ?%Z.leb_le]. lia. }
  assert (year_out -> rejects "year" (decode_Budget (members p))) as Hy.
  { intros (y & Hb & Hr). unfold decode_Budget.
    do 2 apply rejects_and_l. apply rejects_and_r.
    rewrite Hb. apply Field_rejects. unfold constrained, ge_le.
    destruct (_ && _) eqn:E; [| done].
    apply andb_true_iff in E as [?%Z.leb_le ?%Z.leb_le]. lia. }
  assert (∃ fields, decode_Budget (members p) = inl fields) as [fields Hd].
  { destruct Hout as [H | H]; [apply Hm in H | apply Hy in H];
      destruct H as (fields & ? & _); eauto. }
  eexists. exists fields. unfold POST_api_budgets. rewrite Hd.
  split; [reflexivity |]. split; [done |].
  split; [| split; [| split; [apply reject_cases |]]].
  - intros H. apply Hm in H as (fields' & ? & ?). congruence.
  - intros H. apply Hy in H as (fields' & ? & ?). congruence.
  - intros ->. apply reject_finite.
Qed.

(** ** The diagnostics route *)

Lemma take_chars_length (n : nat) (s : string) :
  char_length (take_chars n s) = Nat.min n (char_length s).
Proof.
  revert n. induction s as [| c s IH]; intros n; simpl.
  - by rewrite Nat.min_0_r.
  - destruct (is_continuation c) eqn:E; simpl; rewrite ?E; [apply IH |].
    destruct n as [| n]; simpl; [done |]. by rewrite E, IH.
Qed.

(** The cut is at the start of a character. *)
Lemma take_chars_prefix (n : nat) (s : string) :
  ∃ rest,
    s = take_chars n s ++ rest
    ∧ match rest with
      | String c _ => is_continuation c = false
      | EmptyString => True
      end.
Proof.
  revert n. induction s as [| c s IH]; intros n; simpl.
  - by exists "".
  - destruct (is_continuation c) eqn:E.
    + destruct (IH n) as (rest & Hrest & Hb). exists rest. split; [| done].
      rewrite Hrest at 1. reflexivity.
    + destruct n as [| n].
      * exists (String c s). by split.
      * destruct (IH n) as (rest & Hrest & Hb). exists rest. split; [| done].
        rewrite Hrest at 1. reflexivity.
Qed.

Lemma take_chars_whole (n : nat) (s : string) :
  (char_length s <= n)%nat -> take_chars n s = s.
Proof.
  revert n. induction s as [| c s IH]; intros n; simpl; [done |].
  destruct (is_continuation c); [intros Hl; by rewrite IH |].
  destruct n as [| n]; [lia |]. intros Hl. rewrite IH; [done | lia].
Qed.

(** C6. [GET /test] answers 200 in every process state and leaves the state
    alone.  With no connection the body says so; when the collection names
    cannot be listed, or when reading the handle raises, the [database] field
    carries the fixed prefix followed by the first 80 characters of the
    error text, and nothing is raised.  The first 80 characters of a text
    are the start of it that has 80 characters, or all of them when they are
    fewer, and ends where a character ends. *)
Theorem diagnostics_always_200 (w : world) :
  ∃ r,
    GET_test w = (mkresponse 200 (JDiagnostics r), w)
    ∧ match db w with
      | None => resp_database r = "⚠️ Available but not initialized"
      | Some d =>
          match name d, failure d with
          | AttrRaises e, _ => resp_database r = "❌ Error: " ++ slice80 e
          | _, Some e =>
              resp_database r = "⚠️ Connected but Error: " ++ slice80 e
          | _, None => resp_database r = "✅ Connected & Working"
          end
      end
    ∧ ∀ e,
        char_length (slice80 e) = Nat.min 80 (char_length e)
        ∧ ∃ rest,
            e = slice80 e ++ rest
            ∧ match rest with
              | String c _ => is_continuation c = false
              | EmptyString => True
              end.
Proof.
  unfold GET_test, test_database.
  destruct (db w) as [d |] eqn:Hdb; simpl.
  - unfold hasattr_name, getattr_name, list_collection_names.
    destruct (name d) as [| nm | e] eqn:Hname, (failure d) as [e' |] eqn:Hf;
      simpl; eexists; (split; [reflexivity |]); simpl;
      (split; [reflexivity |]);
      intros e0; split;
      first [apply take_chars_length | apply take_chars_prefix].
  - eexists; split; [reflexivity |]; simpl. split; [reflexivity |].
    intros e0; split; [apply take_chars_length | apply take_chars_prefix].
Qed.

(** ** The list routes *)

Lemma run_list_transactions limit category tx_type w :
  run (list_transactions limit category tx_type) w
  = listing "transaction" (transactions_filter category tx_type) limit w.
Proof.
  unfold run, list_transactions, or_raise, listing, stored, get_documents,
    transactions_filter, mbind, M_bind, mret, M_ret; simpl.
  destruct (db w) as [d |]; [destruct (failure d) |]; reflexivity.
Qed.

Lemma run_list_budgets month year category limit w :
  ∃ filter_dict,
    run (list_budgets month year category limit) w
    = listing "budget" filter_dict limit w
    ∧ filter_dict !! "category" = VStr <$> category.
Proof.
  eexists. split.
  - unfold run, list_budgets, or_raise, listing, stored, get_documents,
      mbind, M_bind, mret, M_ret; simpl.
    destruct (db w) as [d |]; [destruct (failure d) |]; reflexivity.
  - destruct month, year, category; reflexivity.
Qed.

Lemma run_list_categories limit w :
  run (list_categories limit) w = listing "category" ∅ limit w.
Proof.
  unfold run, list_categories, or_raise, listing, stored, get_documents,
    mbind, M_bind, mret, M_ret; simpl.
  destruct (db w) as [d |]; [destruct (failure d) |]; reflexivity.
Qed.

Lemma listing_length collection_name filter_dict limit w :
  0 <= limit ->
  Z.of_nat (length (items_of (listing collection_name filter_dict limit w).1)) <= limit.
Proof.
  intros Hl. unfold listing, items_of, respond; simpl.
  destruct (stored collection_name w); simpl; [lia |].
  destruct (bool_decide _); simpl; [| lia].
  unfold listed. rewrite length_fmap, length_take. lia.
Qed.

Lemma listing_not_422 collection_name filter_dict limit w :
  status_code (listing collection_name filter_dict limit w).1 ≠ 422.
Proof.
  unfold listing, respond; simpl.
  destruct (stored collection_name w); [done |]. by destruct (bool_decide _).
Qed.

(** What decoding the [limit] of [GET /api/transactions] gives. *)
Lemma decode_list_transactions_limit q s n :
  query_get "limit" q = Some s ->
  int_of_str s = Some n ->
  if ge_le 1 200 n
  then ∀ fields, decode_list_transactions q = inl fields -> "limit" ∉ fields
  else rejects "limit" (decode_list_transactions q).
Proof.
  intros Hq Hs.
  assert (Field "limit" (Some 50) (int_param (ge_le 1 200)) (param "limit" q)
          = if ge_le 1 200 n then inr n else inl ["limit"]) as Hl.
  { unfold param, Field, int_param, constrained. rewrite Hq, Hs. simpl.
    by destruct (ge_le 1 200 n). }
  unfold decode_list_transactions. rewrite Hl. destruct (ge_le 1 200 n).
  - intros fields.
    destruct (Field "category" _ _ _) as [e1 | c] eqn:E1;
      destruct (Field "tx_type" _ _ _) as [e2 | t] eqn:E2; simpl;
      intros; simplify_eq.
    + unfold Field, param, given in E1.
      destruct (query_get "category" q); simplify_eq.
    + unfold Field, param, given in E1.
      destruct (query_get "category" q); simplify_eq.
    + unfold Field, param in E2.
      destruct (query_get "tx_type" q) as [v |]; [| done].
      destruct (expense_or_income v); [done |].
      injection E2 as <-. in_list.
  - do 2 apply rejects_and_l. apply rejects_and_r.
    exists ["limit"]. split; [done | in_list].
Qed.

Lemma decode_list_transactions_inr q limit category tx_type :
  decode_list_transactions q = inr (limit, category, tx_type) ->
  Field "limit" (Some 50) (int_param (ge_le 1 200)) (param "limit" q) = inr limit
  ∧ category = query_get "category" q
  ∧ tx_type = query_get "tx_type" q
  ∧ (∀ s, tx_type = Some s -> expense_or_income s = true).
Proof.
  unfold decode_list_transactions. intros H.
  apply and_field_inr in H as (g3 & t & H & Ht & E3).
  apply and_field_inr in H as (g2 & c & H & Hc & E2).
  apply and_field_inr in H as (g1 & l & H & Hl & E1).
  simplify_eq. split; [done |].
  unfold Field, param, given in Hc, Ht.
  destruct (query_get "category" q), (query_get "tx_type" q) as [v |];
    try destruct (expense_or_income v) eqn:Ev;
    simplify_eq; (split; [done |]); (split; [done |]);
    intros; simplify_eq; done.
Qed.

Lemma query_get_cons_ne pname k v q :
  k ≠ pname -> query_get pname ((k, v) :: q) = query_get pname q.
Proof.
  intros Hne. simpl. destruct (query_get pname q); [done |].
  apply String.eqb_neq in Hne. by rewrite Hne.
Qed.

Lemma param_cons_ne pname k v q :
  k ≠ pname -> param pname ((k, v) :: q) = param pname q.
Proof. intros Hne. unfold param. by rewrite query_get_cons_ne. Qed.

Lemma Field_param_given {B} pname dflt (conv : string -> option B) q s :
  query_get pname q = Some s ->
  Field pname dflt conv (param pname q)
  = match conv s with Some b => inr b | None => inl [pname] end.
Proof. intros Hq. unfold param. by rewrite Hq. Qed.

Lemma Field_param_missing {B} pname (d : B) (conv : string -> option B) q :
  query_get pname q = None ->
  Field pname (Some d) conv (param pname q) = inr d.
Proof. intros Hq. unfold param. by rewrite Hq. Qed.

Lemma int_param_Some ok s n :
  int_of_str s = Some n -> int_param ok s = if ok n then Some n else None.
Proof. intros Hs. unfold int_param, constrained. rewrite Hs. reflexivity. Qed.

Lemma decode_list_budgets_inr q month year category limit :
  decode_list_budgets q = inr (month, year, category, limit) ->
  Field "limit" (Some 100) int_of_str (param "limit" q) = inr limit
  ∧ category = query_get "category" q.
Proof.
  unfold decode_list_budgets. intros H.
  apply and_field_inr in H as (g4 & l & H & Hl & E4).
  apply and_field_inr in H as (g3 & c & H & Hc & E3).
  apply and_field_inr in H as (g2 & y & H & Hy & E2).
  apply and_field_inr in H as (g1 & m & H & Hm & E1).
  injection H as <-. subst g2 g3 g4. injection E4 as -> -> -> ->.
  split; [done |].
  unfold Field, param, given in Hc.
  destruct (query_get "category" q); by injection Hc as <-.
Qed.

(** When its [limit] decodes, [GET /api/budgets] is rejected only for its
    [month] or its [year]. *)
Lemma decode_list_budgets_inl q l fields :
  Field "limit" (Some 100) int_of_str (param "limit" q) = inr l ->
  decode_list_budgets q = inl fields ->
  ∀ x, x ∈ fields -> x = "month" ∨ x = "year".
Proof.
  intros Hl. unfold decode_list_budgets. rewrite Hl.
  assert (∀ pname, ∃ r,
    Field pname (Some None) (λ s, Some <$> int_of_str s) (param pname q) = r
    ∧ ∀ e, r = inl e -> e = [pname]) as Hint.
  { intros pname. eexists; split; [reflexivity |]. intros e.
    unfold Field, param. destruct (query_get pname q) as [v |]; [| done].
    destruct (int_of_str v); simpl; [done |]. by intros [= <-]. }
  assert (∃ c, Field "category" (Some None) given (param "category" q) = inr c)
    as [c ->].
  { unfold Field, param, given. destruct (query_get "category" q); eauto. }
  destruct (Hint "month") as (rm & -> & Hm).
  destruct (Hint "year") as (ry & -> & Hy).
  destruct rm as [em | m]; [rewrite (Hm em eq_refl) |];
    (destruct ry as [ey | y]; [rewrite (Hy ey eq_refl) |]);
    simpl; intros [= <-] x Hx; in_list.
Qed.

Lemma transactions_limit_rejected q w s n :
  query_get "limit" q = Some s ->
  int_of_str s = Some n ->
  ¬ (1 <= n <= 200) ->
  ∃ fields,
    GET_api_transactions q w = (unprocessable fields, w) ∧ "limit" ∈ fields.
Proof.
  intros Hq Hs Hn. pose proof (decode_list_transactions_limit q s n Hq Hs) as H.
  destruct (ge_le 1 200 n) eqn:E.
  { unfold ge_le in E. apply andb_true_iff in E as [?%Z.leb_le ?%Z.leb_le].
    lia. }
  destruct H as (fields & Hd & Hin). exists fields.
  unfold GET_api_transactions. by rewrite Hd.
Qed.

(** The limit reaches the storage helper as it was decoded. *)
Lemma budgets_limit_forwarded q w l :
  Field "limit" (Some 100) int_of_str (param "limit" q) = inr l ->
  (∃ fields,
     GET_api_budgets q w = (unprocessable fields, w)
     ∧ ∀ x, x ∈ fields -> x = "month" ∨ x = "year")
  ∨ (∃ filter_dict resp,
       GET_api_budgets q w
       = (resp, record_call (CallGet "budget" filter_dict l) w)
       ∧ status_code resp ≠ 422).
Proof.
  intros Hl. unfold GET_api_budgets.
  destruct (decode_list_budgets q) as [fields | [[[m y] c] l']] eqn:Hd.
  - left. exists fields. split; [done |].
    by apply (decode_list_budgets_inl q l).
  - right. apply decode_list_budgets_inr in Hd as (Hl' & _).
    rewrite Hl in Hl'. injection Hl' as <-.
    destruct (run_list_budgets m y c l w) as (f & -> & _).
    exists f. eexists. split; [reflexivity |]. apply listing_not_422.
Qed.

Lemma categories_limit_forwarded q w l :
  Field "limit" (Some 100) int_of_str (param "limit" q) = inr l ->
  ∃ resp,
    GET_api_categories q w = (resp, record_call (CallGet "category" ∅ l) w)
    ∧ status_code resp ≠ 422.
Proof.
  intros Hl. unfold GET_api_categories, decode_list_categories. rewrite Hl.
  rewrite run_list_categories. eexists. split; [reflexivity |].
  apply listing_not_422.
Qed.

(** C4. On [GET /api/transactions] a [limit] of [n] between 1 and 200 bounds
    the number of items by [n], a [limit] outside 1-200 is rejected with a
    validation error that names it, and a request without [limit] is
    answered as the same request with a [limit] of 50.  On the two other
    list routes a [limit] of [n >= 0] bounds the number of items by [n]. *)
Theorem list_limit (q : query) (w : world) :
  (∀ s n,
     query_get "limit" q = Some s ->
     int_of_str s = Some n ->
     (1 <= n <= 200 ->
      Z.of_nat (length (items_of (GET_api_transactions q w).1)) <= n)
     ∧ (0 <= n ->
        Z.of_nat (length (items_of (GET_api_budgets q w).1)) <= n
        ∧ Z.of_nat (length (items_of (GET_api_categories q w).1)) <= n)
     ∧ (¬ (1 <= n <= 200) ->
        ∃ fields,
          GET_api_transactions q w = (unprocessable fields, w)
          ∧ "limit" ∈ fields))
  ∧ (query_get "limit" q = None ->
     Z.of_nat (length (items_of (GET_api_transactions q w).1)) <= 50
     ∧ ∀ s, int_of_str s = Some 50 ->
         GET_api_transactions q w = GET_api_transactions (("limit", s) :: q) w).
Proof.
  split.
  - intros s n Hq Hs. split; [| split].
    + intros Hn. unfold GET_api_transactions.
      destruct (decode_list_transactions q) as [fields | [[l c] t]] eqn:Hd;
        [simpl; lia |].
      apply decode_list_transactions_inr in Hd as (Hl & _).
      rewrite (Field_param_given "limit" _ _ q s Hq) in Hl.
      rewrite (int_param_Some _ s n Hs) in Hl.
      destruct (ge_le 1 200 n); [| done]. injection Hl as <-.
      rewrite run_list_transactions. apply listing_length. lia.
    + intros Hn. split.
      * unfold GET_api_budgets.
        destruct (decode_list_budgets q) as [fields | [[[m y] c] l]] eqn:Hd;
          [simpl; lia |].
        apply decode_list_budgets_inr in Hd as (Hl & _).
        rewrite (Field_param_given "limit" _ _ q s Hq), Hs in Hl.
        injection Hl as <-.
        destruct (run_list_budgets m y c n w) as (f & -> & _).
        by apply listing_length.
      * unfold GET_api_categories, decode_list_categories.
        rewrite (Field_param_given "limit" _ _ q s Hq), Hs.
        rewrite run_list_categories. by apply listing_length.
    + intros Hn. by apply (transactions_limit_rejected q w s n).
  - intros Hq. split.
    + unfold GET_api_transactions.
      destruct (decode_list_transactions q) as [fields | [[l c] t]] eqn:Hd;
        [simpl; lia |].
      apply decode_list_transactions_inr in Hd as (Hl & _).
      rewrite (Field_param_missing "limit" _ _ q Hq) in Hl. injection Hl as <-.
      rewrite run_list_transactions. by apply listing_length.
    + intros s Hs. unfold GET_api_transactions.
      assert (decode_list_transactions (("limit", s) :: q)
              = decode_list_transactions q) as ->; [| done].
      unfold decode_list_transactions.
      rewrite (Field_param_missing "limit" _ _ q Hq).
      rewrite (Field_param_given "limit" _ _ (("limit", s) :: q) s).
      2:{ simpl. by rewrite Hq. }
      rewrite (int_param_Some _ s 50 Hs).
      by rewrite !param_cons_ne.
Qed.

(** C10. On [GET /api/budgets] and [GET /api/categories] every integer
    [limit], zero and the negative ones included, passes decoding and reaches
    [get_documents] unchanged, and 100 is used when the parameter is absent;
    a budgets request can still be rejected, but only for its [month] or its
    [year].  On [GET /api/transactions] a [limit] outside 1-200 is
    rejected. *)
Theorem limit_not_validated (q : query) (w : world) :
  (∀ s n,
     query_get "limit" q = Some s ->
     int_of_str s = Some n ->
     (∃ resp,
        GET_api_categories q w = (resp, record_call (CallGet "category" ∅ n) w)
        ∧ status_code resp ≠ 422)
     ∧ ((∃ fields,
           GET_api_budgets q w = (unprocessable fields, w)
           ∧ ∀ x, x ∈ fields -> x = "month" ∨ x = "year")
        ∨ (∃ filter_dict resp,
             GET_api_budgets q w
             = (resp, record_call (CallGet "budget" filter_dict n) w)
             ∧ status_code resp ≠ 422))
     ∧ (¬ (1 <= n <= 200) ->
        ∃ fields,
          GET_api_transactions q w = (unprocessable fields, w)
          ∧ "limit" ∈ fields))
  ∧ (query_get "limit" q = None ->
     (∃ resp,
        GET_api_categories q w = (resp, record_call (CallGet "category" ∅ 100) w)
        ∧ status_code resp ≠ 422)
     ∧ ((∃ fields,
           GET_api_budgets q w = (unprocessable fields, w)
           ∧ ∀ x, x ∈ fields -> x = "month" ∨ x = "year")
        ∨ (∃ filter_dict resp,
             GET_api_budgets q w
             = (resp, record_call (CallGet "budget" filter_dict 100) w)
             ∧ status_code resp ≠ 422))).
Proof.
  split.
  - intros s n Hq Hs.
    assert (Field "limit" (Some 100) int_of_str (param "limit" q) = inr n) as Hl.
    { by rewrite (Field_param_given "limit" _ _ q s Hq), Hs. }
    split; [by apply categories_limit_forwarded |].
    split; [by apply budgets_limit_forwarded |].
    intros Hn. by apply (transactions_limit_rejected q w s n).
  - intros Hq.
    assert (Field "limit" (Some 100) int_of_str (param "limit" q) = inr 100)
      as Hl by by apply Field_param_missing.
    split; [by apply categories_limit_forwarded |].
    by apply budgets_limit_forwarded.
Qed.

(** ** Filters *)

Lemma transactions_filter_category_falsy category tx_type :
  truthy_opt category = false ->
  transactions_filter category tx_type !! "category" = None.
Proof.
  intros Hc. unfold transactions_filter, set_if. rewrite Hc.
  by destruct (truthy_opt tx_type).
Qed.

Lemma transactions_filter_type category s :
  truthy s = true ->
  transactions_filter category (Some s) !! "type" = Some (VStr s).
Proof.
  intros Hs. unfold transactions_filter, set_if; simpl. rewrite Hs.
  apply lookup_insert_eq.
Qed.

Lemma matches_lookup filter_dict d k v :
  matches filter_dict d -> filter_dict !! k = Some v -> d !! k = Some v.
Proof. intros Hm Hk. exact (Hm k v Hk). Qed.

Lemma matches_empty d : matches ∅ d.
Proof. apply map_Forall_empty. Qed.

Lemma filter_matches_empty (docs : list document) : filter (matches ∅) docs = docs.
Proof.
  induction docs as [| d docs IH]; [done |].
  rewrite filter_cons_True by apply matches_empty. by rewrite IH.
Qed.

(** The conversion leaves a text field other than [id] and [_id] alone. *)
Lemma serializable_lookup_str d k s :
  k ≠ "id" -> k ≠ "_id" ->
  d !! k = Some (VStr s) -> serializable d !! k = Some (VStr s).
Proof.
  intros Hid H_id Hk. unfold serializable, pop_id. rewrite lookup_fmap.
  destruct (d !! "_id").
  - rewrite lookup_insert_ne, lookup_delete_ne, Hk by done. reflexivity.
  - by rewrite Hk.
Qed.

(** C9. An empty [category] is handled in two ways.  [GET /api/transactions]
    drops it: the filter that reaches the store has no [category], and the
    handler does what it does with no category at all.  [GET /api/budgets]
    forwards it: the filter asks for a [category] equal to the empty
    string. *)
Theorem empty_category (q : query) (w : world) :
  query_get "category" q = Some "" ->
  ((∃ fields, GET_api_transactions q w = (unprocessable fields, w))
   ∨ (∃ filter_dict limit resp,
        GET_api_transactions q w
        = (resp, record_call (CallGet "transaction" filter_dict limit) w)
        ∧ filter_dict !! "category" = None))
  ∧ ((∃ fields, GET_api_budgets q w = (unprocessable fields, w))
     ∨ (∃ filter_dict limit resp,
          GET_api_budgets q w
          = (resp, record_call (CallGet "budget" filter_dict limit) w)
          ∧ filter_dict !! "category" = Some (VStr "")))
  ∧ (∀ limit tx_type,
       list_transactions limit (Some "") tx_type w
       = list_transactions limit None tx_type w).
Proof.
  intros Hq. split; [| split].
  - unfold GET_api_transactions.
    destruct (decode_list_transactions q) as [fields | [[l c] t]] eqn:Hd;
      [left; eauto |].
    right. apply decode_list_transactions_inr in Hd as (_ & -> & _).
    rewrite Hq, run_list_transactions. do 3 eexists. split; [reflexivity |].
    by apply transactions_filter_category_falsy.
  - unfold GET_api_budgets.
    destruct (decode_list_budgets q) as [fields | [[[m y] c] l]] eqn:Hd;
      [left; eauto |].
    right. apply decode_list_budgets_inr in Hd as (_ & ->).
    destruct (run_list_budgets m y (query_get "category" q) l w)
      as (f & -> & Hf).
    exists f, l. eexists. split; [reflexivity |]. by rewrite Hf, Hq.
  - reflexivity.
Qed.

Lemma items_of_listing collection_name filter_dict limit w d :
  d ∈ items_of (listing collection_name filter_dict limit w).1 ->
  ∃ docs,
    stored collection_name w = inr docs ∧ d ∈ listed filter_dict limit docs.
Proof.
  unfold listing, items_of, respond; simpl.
  destruct (stored collection_name w) as [e | docs]; simpl.
  { by intros ?%elem_of_nil. }
  destruct (bool_decide _); simpl; [eauto |]. by intros ?%elem_of_nil.
Qed.

Lemma respond_items (items : list document) :
  (Forall renders items
   ∧ respond (inr (JItems items)) = mkresponse 200 (JItems items))
  ∨ (¬ Forall renders items
     ∧ respond (inr (JItems items)) = internal_server_error).
Proof.
  unfold respond, renderable. case_bool_decide; [left | right]; done.
Qed.

Lemma transactions_filter_no_type category :
  transactions_filter category None !! "type" = None.
Proof.
  unfold transactions_filter, set_if; simpl.
  by destruct (truthy_opt category).
Qed.

(** A filter with no [type] does not look at the type of a document. *)
Lemma matches_type_blind filter_dict d v :
  filter_dict !! "type" = None ->
  matches filter_dict (<["type" := v]> d) ↔ matches filter_dict d.
Proof.
  intros Hf. unfold matches, map_Forall.
  split; intros H k x Hk; specialize (H k x Hk); simpl in *;
    (assert (k ≠ "type") as Hne by (intros ->; congruence));
    by rewrite lookup_insert_ne in *.
Qed.

(** C5. With [tx_type=income] every listed document has the [type]
    ["income"].  With no [tx_type] the filter has no [type] and selects a
    document whatever its type: the answer lists the first [limit] stored
    transactions that match it, of either type, in store order, when they
    render, and is a 500 when one of them does not. *)
Theorem type_filter (q : query) (w : world) :
  (query_get "tx_type" q = Some "income" ->
   ∀ d, d ∈ items_of (GET_api_transactions q w).1 ->
        d !! "type" = Some (VStr "income"))
  ∧ (query_get "tx_type" q = None ->
     ∀ docs, stored "transaction" w = inr docs ->
       (∃ fields, GET_api_transactions q w = (unprocessable fields, w))
       ∨ (∃ limit filter_dict,
            1 <= limit <= 200
            ∧ filter_dict !! "type" = None
            ∧ (∀ d v,
                 matches filter_dict (<["type" := v]> d)
                 ↔ matches filter_dict d)
            ∧ let items :=
                serializable <$>
                  take (Z.to_nat limit) (filter (matches filter_dict) docs) in
              (Forall renders items
               ∧ (GET_api_transactions q w).1 = mkresponse 200 (JItems items))
              ∨ (¬ Forall renders items
                 ∧ (GET_api_transactions q w).1 = internal_server_error))).
Proof.
  split.
  - intros Hq d. unfold GET_api_transactions.
    destruct (decode_list_transactions q) as [fields | [[l c] t]] eqn:Hd.
    { simpl. by intros ?%elem_of_nil. }
    apply decode_list_transactions_inr in Hd as (_ & _ & -> & _).
    rewrite Hq, run_list_transactions.
    intros (docs & _ & Hin)%items_of_listing. unfold listed in Hin.
    apply list_elem_of_fmap in Hin as (d' & -> & Hd').
    apply elem_of_take in Hd' as (i & Hd'%list_elem_of_lookup_2 & _).
    apply list_elem_of_filter in Hd' as [Hm _].
    apply serializable_lookup_str; [done | done |].
    apply (matches_lookup _ _ _ _ Hm). by apply transactions_filter_type.
  - intros Ht docs Hdocs. unfold GET_api_transactions.
    destruct (decode_list_transactions q) as [fields | [[l c] t]] eqn:Hd;
      [left; eauto |].
    right. exists l.
    apply decode_list_transactions_inr in Hd as (Hl & -> & -> & _).
    rewrite Ht. exists (transactions_filter (query_get "category" q) None).
    split.
    { unfold Field, param, int_param, constrained, ge_le in Hl.
      destruct (query_get "limit" q) as [v |]; [| injection Hl as <-; lia].
      destruct (int_of_str v) as [z |]; simpl in Hl; [| done].
      destruct (_ && _) eqn:E; [| done]. injection Hl as <-.
      apply andb_true_iff in E as [?%Z.leb_le ?%Z.leb_le]. lia. }
    split; [apply transactions_filter_no_type |].
    split.
    { intros d v. apply matches_type_blind, transactions_filter_no_type. }
    rewrite run_list_transactions. unfold listing; simpl. rewrite Hdocs.
    apply respond_items.
Qed.

(** C7, as the code has it.  The parameter of [GET /api/transactions] that
    must be ["expense"] or ["income"] is named [tx_type]: any other value of
    it is rejected with a validation error that names it.  A parameter named
    [type] is not read: the answer is the one to the request without it. *)
Theorem tx_type_parameter (q : query) (w : world) :
  (∀ v,
     query_get "tx_type" q = Some v ->
     v ≠ "expense" -> v ≠ "income" ->
     ∃ fields,
       GET_api_transactions q w = (unprocessable fields, w)
       ∧ "tx_type" ∈ fields)
  ∧ (∀ v, GET_api_transactions (("type", v) :: q) w = GET_api_transactions q w).
Proof.
  split.
  - intros v Hq He Hi.
    assert (rejects "tx_type" (decode_list_transactions q))
      as (fields & Hd & Hin).
    { unfold decode_list_transactions. apply rejects_and_r.
      rewrite (Field_param_given "tx_type" _ _ q v Hq).
      unfold expense_or_income.
      apply String.eqb_neq in He, Hi. rewrite He, Hi. simpl.
      exists ["tx_type"]. split; [done | in_list]. }
    exists fields. unfold GET_api_transactions. by rewrite Hd.
  - intros v. unfold GET_api_transactions, decode_list_transactions.
    by rewrite !param_cons_ne.
Qed.

(** ** Create, then list *)

Lemma serializable_no__id d : serializable d !! "_id" = None.
Proof.
  unfold serializable, pop_id. rewrite lookup_fmap.
  destruct (d !! "_id") eqn:E.
  - by rewrite lookup_insert_ne, lookup_delete_eq.
  - by rewrite E.
Qed.

Lemma serializable_stored d oid :
  d !! "_id" = None ->
  isoformat <$> d = d ->
  serializable (<["_id" := oid]> d) = <["id" := VStr (str oid)]> d.
Proof.
  intros Hid Hiso. unfold serializable, pop_id.
  rewrite lookup_insert_eq, delete_insert_id by done.
  by rewrite fmap_insert, Hiso.
Qed.

Lemma matches_stored filter_dict d oid :
  d !! "_id" = None ->
  matches filter_dict d -> matches filter_dict (<["_id" := oid]> d).
Proof.
  intros Hid Hm k v Hk. specialize (Hm k v Hk). simpl in Hm.
  rewrite lookup_insert_ne; [done |]. intros <-. congruence.
Qed.

Lemma stored_inr collection_name w docs :
  stored collection_name w = inr docs ->
  ∃ d, db w = Some d ∧ failure d = None
       ∧ docs = documents_of d collection_name.
Proof.
  unfold stored. destruct (db w) as [d |]; [| done].
  destruct (failure d) eqn:Hf; [done |]. intros [= <-]. eauto.
Qed.

Lemma elem_of_insert_at {A} (i : nat) (x y : A) (l : list A) :
  x ∈ insert_at i y l ↔ x = y ∨ x ∈ l.
Proof.
  assert (x ∈ l ↔ x ∈ take i l ∨ x ∈ drop i l) as Hl.
  { by rewrite <- elem_of_app, take_drop. }
  unfold insert_at. rewrite elem_of_app, elem_of_cons. tauto.
Qed.

Lemma filter_insert_at {A} (P : A -> Prop) `{∀ x, Decision (P x)} (i : nat)
    (y : A) (l : list A) :
  P y ->
  ∃ j, filter P (insert_at i y l) = insert_at j y (filter P l)
       ∧ (j <= length (filter P l))%nat.
Proof.
  intros Hy.
  assert (filter P l = filter P (take i l) ++ filter P (drop i l))%list as Hl.
  { by rewrite <- filter_app, take_drop. }
  exists (length (filter P (take i l))). unfold insert_at.
  rewrite filter_app, filter_cons_True by done.
  rewrite Hl, take_app_length, drop_app_length, length_app.
  split; [done | lia].
Qed.

Lemma serializable_stored_renders d oid :
  d !! "_id" = None ->
  isoformat <$> d = d ->
  renders d ->
  renders (serializable (<["_id" := oid]> d)).
Proof.
  intros Hid Hiso Hr. rewrite serializable_stored by done.
  by apply map_Forall_insert_2.
Qed.

(** A record whose dictionary has no [_id], no [datetime] and nothing that
    fails to render is created, when the store takes the write, and then
    listed under any filter it matches, as long as fewer than [limit]
    matching documents were stored before it and those render. *)
Lemma create_then_list {A} `{BaseModel A} collection_name (a : A) w docs
    filter_dict limit :
  stored collection_name w = inr docs ->
  write_refused collection_name (model_dump a) w = None ->
  model_dump a !! "_id" = None ->
  isoformat <$> model_dump a = model_dump a ->
  renders (model_dump a) ->
  matches filter_dict (model_dump a) ->
  Z.of_nat (length (filter (matches filter_dict) docs)) < limit ->
  Forall (λ d, renders (serializable d)) (filter (matches filter_dict) docs) ->
  ∃ id w1 items w2,
    create_document collection_name a w = (inr id, w1)
    ∧ listing collection_name filter_dict limit w1
      = (mkresponse 200 (JItems items), w2)
    ∧ <["id" := VStr id]> (model_dump a) ∈ items
    ∧ ∀ d, d ∈ items -> d !! "_id" = None.
Proof.
  intros (d & Hdb & Hf & ->)%stored_inr Hw Hid Hiso Hr Hm Hlen Hdocs.
  unfold write_refused in Hw. rewrite Hdb in Hw; simpl in Hw.
  unfold create_document; simpl. rewrite Hdb, Hf, Hw.
  set (oid := VObjectId (next_id d)).
  set (doc := <["_id" := oid]> (model_dump a)).
  set (docs := documents_of d collection_name) in *.
  set (i := position d collection_name docs).
  destruct (filter_insert_at (matches filter_dict) i doc docs)
    as (j & Hj & Hle); [by apply matches_stored |].
  do 4 eexists. split; [reflexivity |].
  unfold listing.
  match goal with
  | |- context [stored collection_name ?w1] =>
      assert (stored collection_name w1 = inr (insert_at i doc docs)) as ->
  end.
  { unfold stored; simpl.
    unfold documents_of at 1; simpl. by rewrite lookup_insert_eq. }
  assert (listed filter_dict limit (insert_at i doc docs)
          = serializable <$> insert_at j doc (filter (matches filter_dict) docs))
    as Hlisted.
  { unfold listed. rewrite Hj. rewrite take_ge; [done |].
    unfold insert_at. rewrite length_app, length_take; simpl.
    rewrite length_drop. lia. }
  rewrite Hlisted.
  destruct (respond_items
              (serializable <$>
                 insert_at j doc (filter (matches filter_dict) docs)))
    as [[_ ->] | [Hno _]].
  - split; [reflexivity |]. split.
    + apply list_elem_of_fmap. exists doc. split.
      { symmetry. by apply serializable_stored. }
      apply elem_of_insert_at. by left.
    + intros d' (d'' & -> & _)%list_elem_of_fmap. apply serializable_no__id.
  - destruct Hno. apply Forall_fmap, Forall_forall.
    intros d' [-> | Hd']%elem_of_insert_at; simpl.
    + by apply serializable_stored_renders.
    + by apply (proj1 (Forall_forall _ _) Hdocs).
Qed.

Lemma Transaction_dump_no__id (t : Transaction) : model_dump t !! "_id" = None.
Proof. reflexivity. Qed.

Lemma Transaction_dump_no_datetime (t : Transaction) :
  isoformat <$> model_dump t = model_dump t.
Proof.
  simpl. rewrite !fmap_insert, fmap_empty.
  by destruct (Transaction_category t), (Transaction_note t).
Qed.

Lemma Transaction_dump_renders (t : Transaction) :
  float_finite (Transaction_amount t) = true -> renders (model_dump t).
Proof.
  intros Hfin. renders_dump; try done.
  all: by destruct (Transaction_amount t), (Transaction_category t),
            (Transaction_note t).
Qed.

Lemma Category_dump_no__id (c : Category) : model_dump c !! "_id" = None.
Proof. reflexivity. Qed.

Lemma Category_dump_no_datetime (c : Category) :
  isoformat <$> model_dump c = model_dump c.
Proof.
  simpl. rewrite !fmap_insert, fmap_empty. by destruct (Category_color c).
Qed.

Lemma Category_dump_renders (c : Category) : renders (model_dump c).
Proof.
  renders_dump; try done. by destruct (Category_color c).
Qed.

(** C1, as the code has it.  A valid transaction with a finite amount is
    created and then listed with a filter that its fields match.  When the
    store is reachable and takes the write, fewer than [limit] stored
    transactions matching the filter were there before, and those render,
    both requests are answered 200 and the list has the document whose
    fields are those of the decoded payload (an absent [type] is
    ["expense"], an absent [category] or [note] is null) together with
    [id], the text the create returned; no listed document has an [_id]. *)
Theorem transaction_round_trip (p : posted TransactionBody)
    (payload : Transaction) (q : query) (limit : Z)
    (category tx_type : option string) (w : world) (docs : list document) :
  decode_Transaction (members p) = inr payload ->
  float_finite (Transaction_amount payload) = true ->
  stored "transaction" w = inr docs ->
  write_refused "transaction" (model_dump payload) w = None ->
  decode_list_transactions q = inr (limit, category, tx_type) ->
  matches (transactions_filter category tx_type) (model_dump payload) ->
  Z.of_nat (length (filter (matches (transactions_filter category tx_type)) docs))
    < limit ->
  Forall (λ d, renders (serializable d))
    (filter (matches (transactions_filter category tx_type)) docs) ->
  ∃ id w1 items w2,
    POST_api_transactions p w = (mkresponse 200 (JId id), w1)
    ∧ GET_api_transactions q w1 = (mkresponse 200 (JItems items), w2)
    ∧ <["id" := VStr id]> (model_dump payload) ∈ items
    ∧ ∀ d, d ∈ items -> d !! "_id" = None.
Proof.
  intros Hb Hfin Hdocs Hw Hq Hm Hlen Hr.
  destruct (create_then_list "transaction" payload w docs _ limit Hdocs Hw
              (Transaction_dump_no__id payload)
              (Transaction_dump_no_datetime payload)
              (Transaction_dump_renders payload Hfin) Hm Hlen Hr)
    as (id & w1 & items & w2 & Hc & Hl & Hin & Hno).
  exists id, w1, items, w2. split; [| split; [| done]].
  - unfold POST_api_transactions. rewrite Hb.
    unfold run, create_transaction, or_raise, mbind, M_bind. by rewrite Hc.
  - unfold GET_api_transactions. rewrite Hq. by rewrite run_list_transactions.
Qed.

(** C8.  A category is created with no [color], the store being reachable
    and taking the write.  The create is answered 200 and the store then
    has, somewhere among the categories it had, a document whose conversion
    has the [id] that was returned, the [name] that was sent and a null
    [color].  Every list from then on answers with conversions of the
    stored documents only, so the new category is never listed with another
    color; and a list whose [limit] is above the number of categories
    stored before, those rendering, is answered 200 and has it. *)
Theorem category_round_trip (p : posted CategoryBody) (payload : Category)
    (w : world) (docs : list document) :
  in_color (members p) = Missing ->
  decode_Category (members p) = inr payload ->
  stored "category" w = inr docs ->
  write_refused "category" (model_dump payload) w = None ->
  ∃ id w1 doc i,
    POST_api_categories p w = (mkresponse 200 (JId id), w1)
    ∧ stored "category" w1 = inr (insert_at i doc docs)
    ∧ serializable doc !! "id" = Some (VStr id)
    ∧ serializable doc !! "name" = Some (VStr (Category_name payload))
    ∧ serializable doc !! "color" = Some VNone
    ∧ (∀ q, Forall (λ d, ∃ d', d' ∈ insert_at i doc docs ∧ d = serializable d')
              (items_of (GET_api_categories q w1).1))
    ∧ (∀ q limit,
         decode_list_categories q = inr limit ->
         Z.of_nat (length docs) < limit ->
         Forall (λ d, renders (serializable d)) docs ->
         ∃ items w2,
           GET_api_categories q w1 = (mkresponse 200 (JItems items), w2)
           ∧ serializable doc ∈ items).
Proof.
  intros Hcolor Hb Hdocs Hw.
  assert (Category_color payload = None) as Hnone.
  { unfold decode_Category in Hb. rewrite Hcolor in Hb.
    destruct (Field "name" _ _ _) as [e | n]; simpl in Hb; [done |].
    by injection Hb as <-. }
  pose proof Hdocs as (d & Hdb & Hf & Edocs)%stored_inr.
  pose proof Hw as Hw'. unfold write_refused in Hw'.
  rewrite Hdb in Hw'; simpl in Hw'.
  set (oid := VObjectId (next_id d)).
  set (doc := <["_id" := oid]> (model_dump payload)).
  set (i := position d "category" docs).
  assert (serializable doc = <["id" := VStr (str oid)]> (model_dump payload))
    as Hser.
  { apply serializable_stored;
      [apply Category_dump_no__id | apply Category_dump_no_datetime]. }
  assert (∃ w1,
            create_document "category" payload w = (inr (str oid), w1)
            ∧ stored "category" w1 = inr (insert_at i doc docs))
    as (w1 & Hc & Hstored).
  { unfold create_document; simpl. rewrite Hdb, Hf, Hw'.
    eexists. split; [subst docs; reflexivity |].
    unfold stored; simpl.
    unfold documents_of at 1; simpl. rewrite lookup_insert_eq; simpl.
    by subst docs. }
  exists (str oid), w1, doc, i.
  split.
  { unfold POST_api_categories. rewrite Hb.
    unfold run, create_category, or_raise, mbind, M_bind. by rewrite Hc. }
  split; [done |]. rewrite Hser.
  split; [by rewrite lookup_insert_eq |].
  split; [by simpl |]. split; [simpl; by rewrite Hnone |].
  split.
  - intros q. unfold GET_api_categories.
    destruct (decode_list_categories q) as [fields | l]; [constructor |].
    rewrite run_list_categories. apply Forall_forall.
    intros d0 (docs1 & Hs & Hin)%items_of_listing.
    rewrite Hstored in Hs. injection Hs as <-. unfold listed in Hin.
    apply list_elem_of_fmap in Hin as (d' & -> & Hd').
    exists d'. split; [| done].
    apply elem_of_take in Hd' as (k & Hd'%list_elem_of_lookup_2 & _).
    by apply list_elem_of_filter in Hd' as [_ ?].
  - intros q limit Hq Hlen Hr.
    destruct (create_then_list "category" payload w docs ∅ limit Hdocs Hw
                (Category_dump_no__id payload)
                (Category_dump_no_datetime payload)
                (Category_dump_renders payload) (matches_empty _))
      as (id' & w1' & items & w2 & Hc' & Hl & Hin & _).
    { by rewrite filter_matches_empty. }
    { by rewrite filter_matches_empty. }
    rewrite Hc in Hc'. injection Hc' as <- <-.
    exists items, w2. split; [| done].
    unfold GET_api_categories. rewrite Hq. by rewrite run_list_categories.
Qed.

(** ** What the schemas accept *)

Lemma Field_inr {A B} fname dflt (conv : A -> option B) (r : raw A) (b : B) :
  Field fname dflt conv r = inr b
  ↔ (r = Missing ∧ dflt = Some b) ∨ (∃ a, r = Given a ∧ conv a = Some b).
Proof.
  unfold Field. split.
  - destruct r as [| | a]; [destruct dflt | | destruct (conv a) eqn:E];
      intros [= <-]; eauto.
  - intros [[-> ->] | (a & -> & ->)]; reflexivity.
Qed.

Lemma TxType_of_str_Some (s : string) (t : TxType) :
  TxType_of_str s = Some t ↔ s = TxType_str t.
Proof.
  unfold TxType_of_str. split.
  - destruct (String.eqb_spec s "expense") as [-> | _]; [by intros [= <-] |].
    destruct (String.eqb_spec s "income") as [-> | _]; [by intros [= <-] | done].
  - intros ->. by destruct t.
Qed.

Lemma constrained_Some {A} (ok : A -> bool) (a b : A) :
  constrained ok a = Some b ↔ a = b ∧ ok b = true.
Proof.
  unfold constrained. split.
  - destruct (ok a) eqn:E; [| done]. by intros [= <-].
  - intros [-> ->]. reflexivity.
Qed.

Lemma ge_le_true (lo hi z : Z) : ge_le lo hi z = true ↔ lo <= z <= hi.
Proof. unfold ge_le. rewrite andb_true_iff, !Z.leb_le. done. Qed.

(** An [Optional] field with the default [None]. *)
Lemma optional_Field_inr {A} fname (r : raw (option A)) (o : option A) :
  Field fname (Some None) Some r = inr o
  ↔ (r = Missing ∧ o = None) ∨ r = Given o.
Proof.
  rewrite Field_inr. split.
  - intros [[-> [= <-]] | (a & -> & [= <-])]; eauto.
  - intros [[-> ->] | ->]; eauto.
Qed.

(** A required field with no constraint. *)
Lemma required_Field_inr {A} fname (r : raw A) (a : A) :
  Field fname None Some r = inr a ↔ r = Given a.
Proof.
  rewrite Field_inr. split.
  - by intros [[_ [=]] | (a' & -> & [= <-])].
  - intros ->. eauto.
Qed.

(** A transaction body decodes to [t] exactly when its [type] is absent (and
    [t] is an expense) or the text of [t]'s type, its [amount] is [t]'s and
    greater than 0, its [category] and [note] are absent (and null in [t])
    or [t]'s, and its [date] is [t]'s. *)
Theorem Transaction_accepted_iff (b : TransactionBody) (t : Transaction) :
  decode_Transaction b = inr t
  ↔ ((in_type b = Missing ∧ Transaction_type t = expense)
     ∨ in_type b = Given (TxType_str (Transaction_type t)))
    ∧ (in_amount b = Given (Transaction_amount t)
       ∧ float_gt0 (Transaction_amount t) = true)
    ∧ ((in_category b = Missing ∧ Transaction_category t = None)
       ∨ in_category b = Given (Transaction_category t))
    ∧ ((in_note b = Missing ∧ Transaction_note t = None)
       ∨ in_note b = Given (Transaction_note t))
    ∧ in_date b = Given (Transaction_date t).
Proof.
  destruct t as [ty am ca no da]; simpl.
  rewrite <- (required_Field_inr "date" (in_date b) da).
  rewrite <- (optional_Field_inr "note" (in_note b) no).
  rewrite <- (optional_Field_inr "category" (in_category b) ca).
  assert (Field "amount" None (constrained float_gt0) (in_amount b) = inr am
          ↔ in_amount b = Given am ∧ float_gt0 am = true) as <-.
  { rewrite Field_inr. split.
    - intros [[_ [=]] | (a & -> & [-> ?]%constrained_Some)]. done.
    - intros [-> ?]. right. exists am. by rewrite constrained_Some. }
  assert (Field "type" (Some expense) TxType_of_str (in_type b) = inr ty
          ↔ (in_type b = Missing ∧ ty = expense)
            ∨ in_type b = Given (TxType_str ty)) as <-.
  { rewrite Field_inr. split.
    - intros [[-> [= <-]] | (s & -> & ->%TxType_of_str_Some)]; eauto.
    - intros [[-> ->] | ->]; [by left |]. right. eexists. split; [done |].
      by apply TxType_of_str_Some. }
  unfold decode_Transaction. split.
  - intros H.
    apply and_field_inr in H as (g5 & da' & H & Hda & E5).
    apply and_field_inr in H as (g4 & no' & H & Hno & E4).
    apply and_field_inr in H as (g3 & ca' & H & Hca & E3).
    apply and_field_inr in H as (g2 & am' & H & Ham & E2).
    apply and_field_inr in H as (g1 & ty' & H & Hty & E1).
    injection H as <-. subst g2 g3 g4 g5. injection E5 as -> -> -> -> ->.
    done.
  - intros (-> & -> & -> & -> & ->). reflexivity.
Qed.

(** A budget body decodes to [t] exactly when its [month] is [t]'s and within
    1-12, its [year] is [t]'s and within 2000-3000, its [amount] is [t]'s and
    at least 0, and its [category] is absent (and null in [t]) or [t]'s. *)
Theorem Budget_accepted_iff (b : BudgetBody) (t : Budget) :
  decode_Budget b = inr t
  ↔ (in_month b = Given (Budget_month t) ∧ 1 <= Budget_month t <= 12)
    ∧ (in_year b = Given (Budget_year t) ∧ 2000 <= Budget_year t <= 3000)
    ∧ (in_budget_amount b = Given (Budget_amount t)
       ∧ float_ge0 (Budget_amount t) = true)
    ∧ ((in_budget_category b = Missing ∧ Budget_category t = None)
       ∨ in_budget_category b = Given (Budget_category t)).
Proof.
  destruct t as [mo ye am ca]; simpl.
  rewrite <- (optional_Field_inr "category" (in_budget_category b) ca).
  assert (∀ {A} fname (ok : A -> bool) (r : raw A) (a : A),
            Field fname None (constrained ok) r = inr a
            ↔ r = Given a ∧ ok a = true) as Hreq.
  { intros A fname ok r a. rewrite Field_inr. split.
    - intros [[_ [=]] | (a' & -> & [-> ?]%constrained_Some)]. done.
    - intros [-> ?]. right. exists a. by rewrite constrained_Some. }
  rewrite <- (ge_le_true 1 12 mo), <- (ge_le_true 2000 3000 ye).
  rewrite <- (Hreq _ "month"), <- (Hreq _ "year"), <- (Hreq _ "amount").
  unfold decode_Budget. split.
  - intros H.
    apply and_field_inr in H as (g4 & ca' & H & Hca & E4).
    apply and_field_inr in H as (g3 & am' & H & Ham & E3).
    apply and_field_inr in H as (g2 & ye' & H & Hye & E2).
    apply and_field_inr in H as (g1 & mo' & H & Hmo & E1).
    injection H as <-. subst g2 g3 g4. injection E4 as -> -> -> ->.
    done.
  - intros (-> & -> & -> & ->). reflexivity.
Qed.

(** A category body decodes to [c] exactly when its [name] is [c]'s, the
    empty name included, and its [color] is absent (and null in [c]) or
    [c]'s. *)
Theorem Category_accepted_iff (b : CategoryBody) (c : Category) :
  decode_Category b = inr c
  ↔ in_name b = Given (Category_name c)
    ∧ ((in_color b = Missing ∧ Category_color c = None)
       ∨ in_color b = Given (Category_color c)).
Proof.
  destruct c as [na co]; simpl.
  rewrite <- (optional_Field_inr "color" (in_color b) co).
  rewrite <- (required_Field_inr "name" (in_name b) na).
  unfold decode_Category. split.
  - intros H.
    apply and_field_inr in H as (g2 & co' & H & Hco & E2).
    apply and_field_inr in H as (g1 & na' & H & Hna & E1).
    injection H as <-. subst g2. injection E2 as -> ->.
    done.
  - intros (-> & ->). reflexivity.
Qed.

(** ** The conversion of listed documents *)

Lemma isoformat_idemp (v : value) : isoformat (isoformat v) = isoformat v.
Proof. by destruct v. Qed.

Lemma isoformat_no_datetime (v : value) (iso : string) :
  isoformat v ≠ VDatetime iso.
Proof. by destruct v. Qed.

(** The fields of a converted document.  [_id] is gone.  [id] is the text of
    the [_id] the document had, whatever [id] it had besides; with no [_id]
    an [id] stays.  Every other field stays, a [datetime] as its text. *)
Theorem serializable_fields (d : document) :
  serializable d !! "_id" = None
  ∧ serializable d !! "id"
    = match d !! "_id" with
      | Some v => Some (VStr (str v))
      | None => isoformat <$> d !! "id"
      end
  ∧ ∀ k, k ≠ "id" -> k ≠ "_id" -> serializable d !! k = isoformat <$> d !! k.
Proof.
  split; [apply serializable_no__id |].
  unfold serializable, pop_id. split.
  - rewrite lookup_fmap. destruct (d !! "_id"); [| done].
    by rewrite lookup_insert_eq.
  - intros k Hid H_id. rewrite lookup_fmap. destruct (d !! "_id"); [| done].
    by rewrite lookup_insert_ne, lookup_delete_ne.
Qed.

(** After the conversion no field holds a [datetime], and converting again
    changes nothing. *)
Theorem serializable_idempotent (d : document) :
  map_Forall (λ _ v, ∀ iso, v ≠ VDatetime iso) (serializable d)
  ∧ serializable (serializable d) = serializable d.
Proof.
  split.
  - intros k v. unfold serializable. rewrite lookup_fmap.
    destruct (pop_id d !! k) as [v' |]; simpl; [| done].
    intros [= <-] iso. apply isoformat_no_datetime.
  - unfold serializable at 1. unfold pop_id at 1.
    rewrite serializable_no__id. unfold serializable.
    rewrite <- map_fmap_compose. apply map_fmap_ext.
    intros k v _. apply isoformat_idemp.
Qed.

(** The keys of a converted document: those of the document, with [id] in
    the place of [_id]. *)
Theorem serializable_keys (d : document) :
  dom (serializable d)
  = match d !! "_id" with
    | Some _ => {["id"]} ∪ dom d ∖ {["_id"]}
    | None => dom d
    end.
Proof.
  unfold serializable, pop_id. rewrite dom_fmap_L.
  destruct (d !! "_id"); [| done].
  by rewrite dom_insert_L, dom_delete_L.
Qed.

Lemma listing_items collection_name filter_dict limit w :
  Forall (λ d, ∃ d', d = serializable d')
    (items_of (listing collection_name filter_dict limit w).1).
Proof.
  apply Forall_forall. intros d (docs & _ & Hin)%items_of_listing.
  unfold listed in Hin. apply list_elem_of_fmap in Hin as (d' & -> & _).
  by exists d'.
Qed.

Lemma serializable_clean (d : document) :
  serializable d !! "_id" = None
  ∧ map_Forall (λ _ v, ∀ iso, v ≠ VDatetime iso) (serializable d).
Proof.
  split; [apply serializable_no__id |].
  intros k v. unfold serializable. rewrite lookup_fmap.
  destruct (pop_id d !! k) as [v' |]; simpl; [| done].
  intros [= <-] iso. apply isoformat_no_datetime.
Qed.

(** Whatever the store holds, no document in the answer of a list route has
    an [_id] or a [datetime] value. *)
Theorem listed_documents_converted (q : query) (w : world) :
  let converted (d : document) :=
    d !! "_id" = None ∧ map_Forall (λ _ v, ∀ iso, v ≠ VDatetime iso) d in
  Forall converted (items_of (GET_api_transactions q w).1)
  ∧ Forall converted (items_of (GET_api_budgets q w).1)
  ∧ Forall converted (items_of (GET_api_categories q w).1).
Proof.
  intros converted.
  assert (∀ collection_name filter_dict limit,
            Forall converted
              (items_of (listing collection_name filter_dict limit w).1)) as H.
  { intros. eapply Forall_impl; [apply listing_items |].
    intros d (d' & ->). apply serializable_clean. }
  split; [| split].
  - unfold GET_api_transactions.
    destruct (decode_list_transactions q) as [fields | [[l c] t]];
      [constructor |].
    rewrite run_list_transactions. apply H.
  - unfold GET_api_budgets.
    destruct (decode_list_budgets q) as [fields | [[[m y] c] l]];
      [constructor |].
    destruct (run_list_budgets m y c l w) as (f & -> & _). apply H.
  - unfold GET_api_categories.
    destruct (decode_list_categories q) as [fields | l]; [constructor |].
    rewrite run_list_categories. apply H.
Qed.

(** ** The outcomes of the routes *)

Lemma run_create {A} `{BaseModel A} collection_name nonfinite (a : A) w :
  create_outcome collection_name nonfinite (inr a) w
    (run (or_raise (id ← create_document collection_name a; mret (JId id))
            (mkHTTPException 500)) w).
Proof.
  unfold create_outcome, run, or_raise, create_document, stored,
    write_refused, mbind, M_bind, mret, M_ret; simpl.
  destruct (db w) as [d |] eqn:Hdb; simpl;
    [destruct (failure d) eqn:Hf; simpl;
     [| destruct (write_error d collection_name (model_dump a)) eqn:Hw] |];
    simpl; (split; [done |]); try by rewrite Hdb.
  exists (VObjectId (next_id d)),
    (position d collection_name (documents_of d collection_name)).
  split; [done |].
  unfold documents_of at 1; simpl. by rewrite lookup_insert_eq.
Qed.

(** The three create routes answer as [create_outcome] says.  A body that
    fails decoding leaves the state alone and is answered 422, or 500 when
    the validation error does not render, which takes a [NaN] or an infinity
    in the body.  A storage error, be the store unreachable or the write
    refused, leaves the store alone and is reported with its text.  A
    success puts one document into the collection, the dictionary of the
    decoded record under the identifier whose text is returned. *)
Theorem create_routes_outcome (w : world) :
  (∀ p, create_outcome "transaction" (nonfinite p)
          (decode_Transaction (members p)) w (POST_api_transactions p w))
  ∧ (∀ p, create_outcome "budget" (nonfinite p) (decode_Budget (members p)) w
            (POST_api_budgets p w))
  ∧ (∀ p, create_outcome "category" (nonfinite p)
            (decode_Category (members p)) w (POST_api_categories p w)).
Proof.
  split; [| split]; intros p.
  - unfold POST_api_transactions.
    destruct (decode_Transaction (members p)) as [fields | a].
    + simpl. split; [done |]. split; [apply reject_cases |].
      intros ->. apply reject_finite.
    + apply (run_create "transaction" (nonfinite p) a w).
  - unfold POST_api_budgets.
    destruct (decode_Budget (members p)) as [fields | a].
    + simpl. split; [done |]. split; [apply reject_cases |].
      intros ->. apply reject_finite.
    + apply (run_create "budget" (nonfinite p) a w).
  - unfold POST_api_categories.
    destruct (decode_Category (members p)) as [fields | a].
    + simpl. split; [done |]. split; [apply reject_cases |].
      intros ->. apply reject_finite.
    + apply (run_create "category" (nonfinite p) a w).
Qed.

Lemma listing_outcome collection_name filter_dict limit w :
  list_outcome collection_name w (listing collection_name filter_dict limit w).
Proof.
  unfold list_outcome, listing; simpl. split; [eauto |].
  destruct (stored collection_name w) as [e | docs]; [done |].
  exists (listed filter_dict limit docs). split; [| apply respond_items].
  unfold listed. apply Forall_fmap, Forall_forall. intros d Hd. exists d.
  split; [| done].
  apply elem_of_take in Hd as (i & Hd%list_elem_of_lookup_2 & _).
  by apply list_elem_of_filter in Hd as [_ ?].
Qed.

(** The three list routes answer 422 with the state unchanged, or as
    [list_outcome] says: one [get_documents] call on the route's own
    collection, the store untouched, 500 with the text of a storage error,
    and else conversions of documents of that collection only, answered 200
    when they all render and 500 when one does not. *)
Theorem list_routes_outcome (q : query) (w : world) :
  ((∃ fields, GET_api_transactions q w = (unprocessable fields, w))
   ∨ list_outcome "transaction" w (GET_api_transactions q w))
  ∧ ((∃ fields, GET_api_budgets q w = (unprocessable fields, w))
     ∨ list_outcome "budget" w (GET_api_budgets q w))
  ∧ ((∃ fields, GET_api_categories q w = (unprocessable fields, w))
     ∨ list_outcome "category" w (GET_api_categories q w)).
Proof.
  split; [| split].
  - unfold GET_api_transactions.
    destruct (decode_list_transactions q) as [fields | [[l c] t]];
      [left; eauto | right].
    rewrite run_list_transactions. apply listing_outcome.
  - unfold GET_api_budgets.
    destruct (decode_list_budgets q) as [fields | [[[m y] c] l]];
      [left; eauto | right].
    destruct (run_list_budgets m y c l w) as (f & -> & _).
    apply listing_outcome.
  - unfold GET_api_categories.
    destruct (decode_list_categories q) as [fields | l];
      [left; eauto | right].
    rewrite run_list_categories. apply listing_outcome.
Qed.

(** ** The filters built from the query *)

Lemma run_list_budgets_filter month year category limit w :
  ∃ filter_dict,
    run (list_budgets month year category limit) w
    = listing "budget" filter_dict limit w
    ∧ filter_dict !! "month" = VInt <$> month
    ∧ filter_dict !! "year" = VInt <$> year
    ∧ filter_dict !! "category" = VStr <$> category
    ∧ dom filter_dict ⊆ ({["month"; "year"; "category"]} : gset string).
Proof.
  eexists. split.
  - unfold run, list_budgets, or_raise, listing, stored, get_documents,
      mbind, M_bind, mret, M_ret; simpl.
    destruct (db w) as [d |]; [destruct (failure d) |]; reflexivity.
  - destruct month, year, category; simpl;
      (split; [reflexivity |]); (split; [reflexivity |]);
      (split; [reflexivity |]);
      rewrite ?dom_insert_L, ?dom_empty_L; in_list.
Qed.

(** The filter of an accepted [GET /api/transactions]: [category] is the
    parameter when it is not empty, [type] is the [tx_type] parameter, and
    there is no other field. *)
Theorem transactions_filter_built (q : query) (w : world) (limit : Z)
    (category tx_type : option string) :
  decode_list_transactions q = inr (limit, category, tx_type) ->
  ∃ filter_dict resp,
    GET_api_transactions q w
    = (resp, record_call (CallGet "transaction" filter_dict limit) w)
    ∧ filter_dict !! "category"
      = (c ← query_get "category" q; if truthy c then Some (VStr c) else None)
    ∧ filter_dict !! "type" = VStr <$> query_get "tx_type" q
    ∧ dom filter_dict ⊆ ({["category"; "type"]} : gset string).
Proof.
  intros Hd. unfold GET_api_transactions. rewrite Hd.
  apply decode_list_transactions_inr in Hd as (_ & -> & -> & Ht).
  rewrite run_list_transactions. do 2 eexists. split; [reflexivity |].
  unfold transactions_filter, set_if.
  destruct (query_get "tx_type" q) as [t |] eqn:Et; simpl.
  - assert (truthy t = true) as ->.
    { specialize (Ht t eq_refl). unfold expense_or_income in Ht.
      apply orb_true_iff in Ht as [->%String.eqb_eq | ->%String.eqb_eq]; done. }
    destruct (query_get "category" q) as [c |]; simpl;
      [destruct (truthy c) |];
      (split; [reflexivity |]); (split; [reflexivity |]);
      rewrite ?dom_insert_L, ?dom_empty_L; in_list.
  - destruct (query_get "category" q) as [c |]; simpl;
      [destruct (truthy c) |];
      (split; [reflexivity |]); (split; [reflexivity |]);
      rewrite ?dom_insert_L, ?dom_empty_L; in_list.
Qed.

(** The filter of an accepted [GET /api/budgets]: [month] and [year] are the
    integers given, whatever they are, [category] is the text given, the
    empty text included, and there is no other field. *)
Theorem budgets_filter_built (q : query) (w : world) (month year : option Z)
    (category : option string) (limit : Z) :
  decode_list_budgets q = inr (month, year, category, limit) ->
  month = query_get "month" q ≫= int_of_str
  ∧ year = query_get "year" q ≫= int_of_str
  ∧ category = query_get "category" q
  ∧ ∃ filter_dict resp,
      GET_api_budgets q w
      = (resp, record_call (CallGet "budget" filter_dict limit) w)
      ∧ filter_dict !! "month" = VInt <$> month
      ∧ filter_dict !! "year" = VInt <$> year
      ∧ filter_dict !! "category" = VStr <$> category
      ∧ dom filter_dict ⊆ ({["month"; "year"; "category"]} : gset string).
Proof.
  intros Hd. unfold GET_api_budgets. rewrite Hd.
  assert (∀ pname (o : option Z),
            Field pname (Some None) (λ s, Some <$> int_of_str s) (param pname q)
            = inr o -> o = query_get pname q ≫= int_of_str) as Hint.
  { intros pname o. unfold Field, param.
    destruct (query_get pname q) as [s |]; simpl; [| by intros [= <-]].
    destruct (int_of_str s); simpl; [by intros [= <-] | done]. }
  pose proof Hd as (_ & Hc)%decode_list_budgets_inr.
  unfold decode_list_budgets in Hd.
  apply and_field_inr in Hd as (g4 & l' & Hd & Hl & E4).
  apply and_field_inr in Hd as (g3 & c' & Hd & _ & E3).
  apply and_field_inr in Hd as (g2 & y' & Hd & Hy & E2).
  apply and_field_inr in Hd as (g1 & m' & Hd & Hm & E1).
  injection Hd as <-. subst g2 g3 g4. injection E4 as Em Ey Ec El.
  subst month year category limit.
  split; [by apply Hint |]. split; [by apply Hint |]. split; [done |].
  destruct (run_list_budgets_filter m' y' c' l' w) as (f & -> & H).
  exists f. eexists. split; [reflexivity | exact H].
Qed.

(** A list route reads the parameters its handler declares and no other:
    two queries that agree on them get the same answer. *)
Theorem only_declared_parameters (q q' : query) (w : world) :
  (query_get "limit" q = query_get "limit" q' ->
   GET_api_categories q w = GET_api_categories q' w)
  ∧ (query_get "limit" q = query_get "limit" q' ->
     query_get "category" q = query_get "category" q' ->
     query_get "tx_type" q = query_get "tx_type" q' ->
     GET_api_transactions q w = GET_api_transactions q' w)
  ∧ (query_get "month" q = query_get "month" q' ->
     query_get "year" q = query_get "year" q' ->
     query_get "category" q = query_get "category" q' ->
     query_get "limit" q = query_get "limit" q' ->
     GET_api_budgets q w = GET_api_budgets q' w).
Proof.
  split; [| split].
  - intros Hl. unfold GET_api_categories, decode_list_categories, param.
    by rewrite Hl.
  - intros Hl Hc Ht.
    unfold GET_api_transactions, decode_list_transactions, param.
    by rewrite Hl, Hc, Ht.
  - intros Hm Hy Hc Hl. unfold GET_api_budgets, decode_list_budgets, param.
    by rewrite Hm, Hy, Hc, Hl.
Qed.

(** ** The diagnostics in full *)

(** What [GET /test] reports besides [database].  [backend] is always
    running.  With no connection nothing else is filled in.  With one,
    [database_url] says whether [DATABASE_URL] is set to a text that is not
    empty; when reading the name of the handle raises, the name and the
    status stay as they were; otherwise the name is reported, or a fixed
    text when the handle has none, the status is [Connected], and the
    collections are the first ten names, or none when they cannot be
    listed. *)
Theorem diagnostics_report (w : world) :
  ∃ r,
    test_database w = inr r
    ∧ resp_backend r = "✅ Running"
    ∧ (length (resp_collections r) <= 10)%nat
    ∧ match db w with
      | None =>
          resp_database_url r = None
          ∧ resp_database_name r = None
          ∧ resp_connection_status r = "Not Connected"
          ∧ resp_collections r = []
      | Some d =>
          resp_database_url r
          = Some (if getenv_DATABASE_URL w then "✅ Set" else "❌ Not Set")
          ∧ match name d with
            | AttrRaises _ =>
                resp_database_name r = None
                ∧ resp_connection_status r = "Not Connected"
                ∧ resp_collections r = []
            | AttrValue s =>
                resp_database_name r = Some s
                ∧ resp_connection_status r = "Connected"
                ∧ resp_collections r
                  = match failure d with
                    | Some _ => []
                    | None => take 10 (map_to_list (collections d)).*1
                    end
            | AttrMissing =>
                resp_database_name r = Some "✅ Connected"
                ∧ resp_connection_status r = "Connected"
                ∧ resp_collections r
                  = match failure d with
                    | Some _ => []
                    | None => take 10 (map_to_list (collections d)).*1
                    end
            end
      end.
Proof.
  unfold test_database.
  destruct (db w) as [d |] eqn:Hdb; simpl.
  - unfold hasattr_name, getattr_name, list_collection_names.
    destruct (name d) as [| nm | e] eqn:Hname, (failure d) as [e' |] eqn:Hf;
      simpl; eexists; (split; [reflexivity |]); simpl;
      (split; [reflexivity |]);
      (split; [rewrite ?length_take; lia |]); done.
  - eexists. split; [reflexivity |]. simpl. repeat split; lia.
Qed.

(** When the collection names cannot be listed and the error text has at
    most 80 characters, [GET /test] reports the text whole. *)
Theorem short_error_reported_whole (w : world) (d : Database) (e : string) :
  db w = Some d ->
  failure d = Some e ->
  (∀ e', name d ≠ AttrRaises e') ->
  (char_length e <= 80)%nat ->
  ∃ r,
    GET_test w = (mkresponse 200 (JDiagnostics r), w)
    ∧ resp_database r = "⚠️ Connected but Error: " ++ e.
Proof.
  intros Hdb Hf Hname Hlen. unfold GET_test, test_database. rewrite Hdb; simpl.
  unfold hasattr_name, getattr_name, list_collection_names. rewrite Hf.
  destruct (name d) as [| nm | e'] eqn:E; [| | by destruct (Hname e')];
    simpl; eexists; (split; [reflexivity |]); simpl;
    unfold slice80; by rewrite take_chars_whole.
Qed.

(** ** Budgets: create, then list *)

Lemma run_list_budgets_eq month year category limit w :
  run (list_budgets month year category limit) w
  = listing "budget" (budgets_filter month year category) limit w.
Proof.
  unfold run, list_budgets, or_raise, listing, stored, get_documents,
    budgets_filter, mbind, M_bind, mret, M_ret; simpl.
  destruct (db w) as [d |]; [destruct (failure d) |]; reflexivity.
Qed.

Lemma Budget_dump_no__id (b : Budget) : model_dump b !! "_id" = None.
Proof. reflexivity. Qed.

Lemma Budget_dump_no_datetime (b : Budget) :
  isoformat <$> model_dump b = model_dump b.
Proof.
  simpl. rewrite !fmap_insert, fmap_empty. by destruct (Budget_category b).
Qed.

Lemma Budget_dump_renders (b : Budget) :
  float_finite (Budget_amount b) = true -> renders (model_dump b).
Proof.
  intros Hfin. renders_dump; try done.
  all: by destruct (Budget_amount b), (Budget_category b).
Qed.

(** A valid budget with a finite amount is created and the budgets are
    listed with a [month], a [year] and a [category] that are absent or
    those of the budget.  When the store is reachable and takes the write,
    and fewer than [limit] budgets, all rendering, were stored before, both
    requests are answered 200 and the list has the document whose fields
    are those of the decoded budget together with [id], the text the create
    returned. *)
Theorem budget_round_trip (p : posted BudgetBody) (payload : Budget)
    (q : query) (month year : option Z) (category : option string)
    (limit : Z) (w : world) (docs : list document) :
  decode_Budget (members p) = inr payload ->
  float_finite (Budget_amount payload) = true ->
  stored "budget" w = inr docs ->
  write_refused "budget" (model_dump payload) w = None ->
  decode_list_budgets q = inr (month, year, category, limit) ->
  (∀ m, month = Some m -> Budget_month payload = m) ->
  (∀ y, year = Some y -> Budget_year payload = y) ->
  (∀ c, category = Some c -> Budget_category payload = Some c) ->
  Z.of_nat (length docs) < limit ->
  Forall (λ d, renders (serializable d)) docs ->
  ∃ id w1 items w2,
    POST_api_budgets p w = (mkresponse 200 (JId id), w1)
    ∧ GET_api_budgets q w1 = (mkresponse 200 (JItems items), w2)
    ∧ <["id" := VStr id]> (model_dump payload) ∈ items.
Proof.
  intros Hb Hfin Hdocs Hw Hq Hm Hy Hc Hlen Hr.
  assert (matches (budgets_filter month year category) (model_dump payload))
    as Hmatch.
  { unfold matches, budgets_filter.
    destruct month as [m |]; [rewrite <- (Hm m eq_refl) |];
      (destruct year as [y |]; [rewrite <- (Hy y eq_refl) |]);
      (destruct category as [c |]; [pose proof (Hc c eq_refl) as Hc' |]);
      repeat (apply map_Forall_insert_2; [simpl; by rewrite ?Hc' |]);
      apply map_Forall_empty. }
  destruct (create_then_list "budget" payload w docs
              (budgets_filter month year category) limit Hdocs Hw
              (Budget_dump_no__id payload) (Budget_dump_no_datetime payload)
              (Budget_dump_renders payload Hfin) Hmatch)
    as (id & w1 & items & w2 & Hcr & Hl & Hin & _).
  { pose proof (length_filter (matches (budgets_filter month year category))
                  docs). lia. }
  { apply Forall_forall. intros d [_ Hd]%list_elem_of_filter.
    by apply (proj1 (Forall_forall _ _) Hr). }
  exists id, w1, items, w2. split; [| split; [| done]].
  - unfold POST_api_budgets. rewrite Hb.
    unfold run, create_budget, or_raise, mbind, M_bind. by rewrite Hcr.
  - unfold GET_api_budgets. rewrite Hq. by rewrite run_list_budgets_eq.
Qed.

End Api.

(** ** Where the specification and the code part *)

(** C1 fails as stated.  An income of plus infinity is a valid payload: its
    amount is greater than 0, its date is there and its type is
    ["income"].  It is created in an empty store, which answers 200, and
    the incomes are listed with [tx_type=income], which matches it.  The
    list is answered 500 and returns no document: the amount does not
    render. *)
Lemma infinite_amount_not_listed :
  let r1 := (POST_api_transactions text_of income_of_infinity empty_world).1 in
  let w1 := (POST_api_transactions text_of income_of_infinity empty_world).2 in
  let r2 := (GET_api_transactions decimal text_of [("tx_type", "income")] w1).1 in
  decode_Transaction (members income_of_infinity)
  = inr (mkTransaction income (Finf false) None None a_date)
  ∧ float_gt0 (Finf false) = true
  ∧ status_code r1 = 200
  ∧ match stored "transaction" w1 with
    | inr docs =>
        (λ d : document, d !! "amount") <$> docs
        = [Some (VFloat (Finf false))]
    | inl _ => False
    end
  ∧ r2 = internal_server_error
  ∧ items_of r2 = [].
Proof.
  intros r1 w1 r2.
  split; [reflexivity |]. split; [reflexivity |].
  split; [vm_compute; reflexivity |]. split; [vm_compute; reflexivity |].
  split; vm_compute; reflexivity.
Qed.

(** C2 fails as stated.  An income of minus infinity has an amount that is
    less than 0 and is not answered with a validation error: the answer is
    a 500. *)
Lemma minus_infinity_answered_500 :
  in_amount (members income_of_minus_infinity) = Given (Finf true)
  ∧ float_le0 (Finf true) = true
  ∧ POST_api_transactions text_of income_of_minus_infinity small_world
    = (internal_server_error, small_world)
  ∧ status_code internal_server_error = 500.
Proof. repeat split; vm_compute; reflexivity. Qed.

(** C3 fails as stated.  A budget for a month 13 whose amount is a [NaN] is
    not answered with a validation error: the answer is a 500. *)
Lemma month_13_with_nan_answered_500 :
  in_month (members budget_month_13_nan) = Given 13
  ∧ ¬ (1 <= 13 <= 12)
  ∧ decode_Budget (members budget_month_13_nan) = inl ["month"; "amount"]
  ∧ POST_api_budgets text_of budget_month_13_nan empty_world
    = (internal_server_error, empty_world)
  ∧ status_code internal_server_error = 500.
Proof.
  split; [reflexivity |]. split; [lia |].
  repeat split; vm_compute; reflexivity.
Qed.

(** C7 fails as stated.  A request with [type=bogus] is not rejected: it is
    answered 200. *)
Lemma type_parameter_not_checked :
  let q := [("type", "bogus")] in
  query_get "type" q = Some "bogus"
  ∧ expense_or_income "bogus" = false
  ∧ status_code (GET_api_transactions decimal text_of q small_world).1 = 200
  ∧ length (items_of (GET_api_transactions decimal text_of q small_world).1)
    = 2%nat.
Proof. intros q. repeat split; vm_compute; reflexivity. Qed.

(** ** Worked instances *)

(** An income of 0 is answered with the validation error for its amount. *)
Lemma nonpositive_amount_rejected_witness :
  in_amount income_of_0 = Given (Ffin 0 0)
  ∧ float_le0 (Ffin 0 0) = true
  ∧ ∃ fields,
      POST_api_transactions text_of (finite_body income_of_0) small_world
      = (unprocessable fields, small_world)
      ∧ "amount" ∈ fields.
Proof.
  split; [reflexivity |]. split; [reflexivity |].
  destruct (nonpositive_amount_rejected text_of (finite_body income_of_0)
              (Ffin 0 0) small_world eq_refl eq_refl)
    as (resp & fields & Hp & _ & Hin & _ & Hfinite & _).
  exists fields. rewrite <- (Hfinite eq_refl). split; [exact Hp | exact Hin].
Defined.

(** A budget for month 13 is answered with the validation error for its
    month. *)
Lemma budget_month_year_rejected_witness :
  in_month budget_month_13 = Given 13
  ∧ ¬ (1 <= 13 <= 12)
  ∧ ∃ fields,
      POST_api_budgets text_of (finite_body budget_month_13) empty_world
      = (unprocessable fields, empty_world)
      ∧ "month" ∈ fields.
Proof.
  assert (∃ m, in_month budget_month_13 = Given m ∧ ¬ (1 <= m <= 12)) as Hout.
  { exists 13. split; [reflexivity | lia]. }
  split; [reflexivity |]. split; [lia |].
  destruct (budget_month_year_rejected text_of (finite_body budget_month_13)
              empty_world (or_introl Hout))
    as (resp & fields & Hp & _ & Hm & _ & _ & Hfinite).
  exists fields. rewrite <- (Hfinite eq_refl).
  split; [exact Hp | exact (Hm Hout)].
Defined.

(** A limit of 1 gives at most one of the two stored transactions, a limit of
    201 is rejected, and no limit is a limit of 50. *)
Lemma list_limit_witness :
  (query_get "limit" [("limit", "1")] = Some "1"
   ∧ decimal "1" = Some 1
   ∧ 1 <= 1 <= 200
   ∧ Z.of_nat (length (items_of
       (GET_api_transactions decimal text_of [("limit", "1")] small_world).1))
     <= 1)
  ∧ (query_get "limit" [("limit", "201")] = Some "201"
     ∧ decimal "201" = Some 201
     ∧ ¬ (1 <= 201 <= 200)
     ∧ ∃ fields,
         GET_api_transactions decimal text_of [("limit", "201")] small_world
         = (unprocessable fields, small_world)
         ∧ "limit" ∈ fields)
  ∧ (query_get "limit" [] = None
     ∧ decimal "50" = Some 50
     ∧ GET_api_transactions decimal text_of [] small_world
       = GET_api_transactions decimal text_of [("limit", "50")] small_world).
Proof.
  split; [| split].
  - split; [reflexivity |]. split; [reflexivity |]. split; [lia |].
    apply (proj1 (list_limit decimal text_of [("limit", "1")] small_world)
             "1" 1 eq_refl eq_refl).
    lia.
  - split; [reflexivity |]. split; [reflexivity |]. split; [lia |].
    apply (proj1 (list_limit decimal text_of [("limit", "201")] small_world)
             "201" 201 eq_refl eq_refl).
    lia.
  - split; [reflexivity |]. split; [reflexivity |].
    apply (proj2 (list_limit decimal text_of [] small_world) eq_refl).
    reflexivity.
Defined.

(** Of an income and an expense, [tx_type=income] lists the income, and no
    parameter lists both. *)
Lemma type_filter_witness :
  (query_get "tx_type" [("tx_type", "income")] = Some "income"
   ∧ (λ d : document, d !! "type") <$>
       items_of
         (GET_api_transactions decimal text_of [("tx_type", "income")]
            small_world).1
     = [Some (VStr "income")]
   ∧ ∀ d,
       d ∈ items_of
             (GET_api_transactions decimal text_of [("tx_type", "income")]
                small_world).1 ->
       d !! "type" = Some (VStr "income"))
  ∧ (query_get "tx_type" [] = None
     ∧ stored "transaction" small_world
       = inr [stored_income 0; stored_expense 1]
     ∧ (∃ limit filter_dict,
          1 <= limit <= 200
          ∧ filter_dict !! "type" = None
          ∧ (∀ d v,
               matches filter_dict (<["type" := v]> d)
               ↔ matches filter_dict d)
          ∧ let items :=
              serializable text_of <$>
                take (Z.to_nat limit)
                  (filter (matches filter_dict)
                     [stored_income 0; stored_expense 1]) in
            (Forall renders items
             ∧ (GET_api_transactions decimal text_of [] small_world).1
               = mkresponse 200 (JItems items))
            ∨ (¬ Forall renders items
               ∧ (GET_api_transactions decimal text_of [] small_world).1
                 = internal_server_error))
     ∧ (λ d : document, d !! "type") <$>
         items_of (GET_api_transactions decimal text_of [] small_world).1
       = [Some (VStr "income"); Some (VStr "expense")]).
Proof.
  split.
  - split; [reflexivity |]. split; [vm_compute; reflexivity |].
    apply (proj1 (type_filter decimal text_of [("tx_type", "income")] small_world)).
    reflexivity.
  - split; [reflexivity |]. split; [reflexivity |].
    split; [| vm_compute; reflexivity].
    destruct (proj2 (type_filter decimal text_of [] small_world)
                eq_refl _ eq_refl) as [(fields & Hr) | Hl].
    + not_rejected Hr.
    + exact Hl.
Defined.

Lemma tx_type_parameter_witness :
  query_get "tx_type" [("tx_type", "bogus")] = Some "bogus"
  ∧ "bogus" ≠ "expense"
  ∧ "bogus" ≠ "income"
  ∧ ∃ fields,
      GET_api_transactions decimal text_of [("tx_type", "bogus")] small_world
      = (unprocessable fields, small_world)
      ∧ "tx_type" ∈ fields.
Proof.
  split; [reflexivity |]. split; [discriminate |]. split; [discriminate |].
  apply (proj1 (tx_type_parameter decimal text_of [("tx_type", "bogus")]
                  small_world) "bogus");
    [reflexivity | discriminate | discriminate].
Defined.

(** [category=] on the two routes. *)
Lemma empty_category_witness :
  query_get "category" [("category", "")] = Some ""
  ∧ (∃ filter_dict limit resp,
       GET_api_transactions decimal text_of [("category", "")] small_world
       = (resp, record_call (CallGet "transaction" filter_dict limit) small_world)
       ∧ filter_dict !! "category" = None)
  ∧ (∃ filter_dict limit resp,
       GET_api_budgets decimal text_of [("category", "")] small_world
       = (resp, record_call (CallGet "budget" filter_dict limit) small_world)
       ∧ filter_dict !! "category" = Some (VStr "")).
Proof.
  split; [reflexivity |].
  destruct (empty_category decimal text_of [("category", "")] small_world eq_refl)
    as ([(fields & Hr) | Ht] & [(fields' & Hr') | Hb] & _);
    try not_rejected Hr; try not_rejected Hr'.
  split; [exact Ht | exact Hb].
Defined.

(** A limit of -5 reaches the store from both routes. *)
Lemma limit_not_validated_witness :
  query_get "limit" [("limit", "-5")] = Some "-5"
  ∧ decimal "-5" = Some (-5)
  ∧ (∃ resp,
       GET_api_categories decimal text_of [("limit", "-5")] small_world
       = (resp, record_call (CallGet "category" ∅ (-5)) small_world)
       ∧ status_code resp ≠ 422)
  ∧ (∃ filter_dict resp,
       GET_api_budgets decimal text_of [("limit", "-5")] small_world
       = (resp, record_call (CallGet "budget" filter_dict (-5)) small_world)
       ∧ status_code resp ≠ 422)
  ∧ (query_get "limit" [] = None
     ∧ ∃ resp,
         GET_api_categories decimal text_of [] small_world
         = (resp, record_call (CallGet "category" ∅ 100) small_world)
         ∧ status_code resp ≠ 422).
Proof.
  split; [reflexivity |]. split; [reflexivity |].
  destruct (proj1 (limit_not_validated decimal text_of [("limit", "-5")]
                     small_world) "-5" (-5) eq_refl eq_refl)
    as (Hc & [(fields & Hr & _) | Hb] & _);
    [not_rejected Hr |].
  split; [exact Hc |]. split; [exact Hb |]. split; [reflexivity |].
  exact (proj1 (proj2 (limit_not_validated decimal text_of [] small_world)
                  eq_refl)).
Defined.

(** An income of 5 is created next to two stored transactions and listed with
    [tx_type=income]. *)
Lemma transaction_round_trip_witness :
  let payload := mkTransaction income (Ffin 5 0) None None a_date in
  let q := [("tx_type", "income")] in
  decode_Transaction income_of_5 = inr payload
  ∧ float_finite (Ffin 5 0) = true
  ∧ stored "transaction" small_world = inr [stored_income 0; stored_expense 1]
  ∧ write_refused "transaction" (model_dump payload) small_world = None
  ∧ decode_list_transactions decimal q = inr (50, None, Some "income")
  ∧ ∃ id w1 items w2,
      POST_api_transactions text_of (finite_body income_of_5) small_world
      = (mkresponse 200 (JId id), w1)
      ∧ GET_api_transactions decimal text_of q w1
        = (mkresponse 200 (JItems items), w2)
      ∧ <["id" := VStr id]> (model_dump payload) ∈ items
      ∧ ∀ d, d ∈ items -> d !! "_id" = None.
Proof.
  intros payload q.
  split; [reflexivity |]. split; [reflexivity |]. split; [reflexivity |].
  split; [reflexivity |]. split; [reflexivity |].
  apply (transaction_round_trip decimal text_of (finite_body income_of_5)
           payload q 50 None (Some "income") small_world
           [stored_income 0; stored_expense 1]);
    [reflexivity | reflexivity | reflexivity | reflexivity | reflexivity
    | by_evaluation | vm_compute; reflexivity | by_evaluation].
Defined.

(** A category with no color is created in an empty store and listed. *)
Lemma category_round_trip_witness :
  in_color rent = Missing
  ∧ decode_Category rent = inr (mkCategory "Rent" None)
  ∧ stored "category" empty_world = inr []
  ∧ write_refused "category" (model_dump (mkCategory "Rent" None)) empty_world
    = None
  ∧ decode_list_categories decimal [] = inr 100
  ∧ ∃ id w1 items w2 d,
      POST_api_categories text_of (finite_body rent) empty_world
      = (mkresponse 200 (JId id), w1)
      ∧ GET_api_categories decimal text_of [] w1
        = (mkresponse 200 (JItems items), w2)
      ∧ d ∈ items
      ∧ d !! "id" = Some (VStr id)
      ∧ d !! "name" = Some (VStr "Rent")
      ∧ d !! "color" = Some VNone.
Proof.
  split; [reflexivity |]. split; [reflexivity |]. split; [reflexivity |].
  split; [reflexivity |]. split; [reflexivity |].
  destruct (category_round_trip decimal text_of (finite_body rent)
              (mkCategory "Rent" None) empty_world [] eq_refl eq_refl eq_refl
              eq_refl)
    as (id & w1 & doc & i & Hp & _ & Hid & Hname & Hcolor & _ & Hlist).
  destruct (Hlist [] 100 eq_refl ltac:(simpl; lia) (Forall_nil_2 _))
    as (items & w2 & Hg & Hin).
  exists id, w1, items, w2, (serializable text_of doc).
  split; [exact Hp |]. split; [exact Hg |]. split; [exact Hin |].
  split; [exact Hid |]. split; [exact Hname | exact Hcolor].
Defined.

(** ** Further worked instances *)

(** An income of 5 with no category and no note decodes. *)
Lemma Transaction_accepted_iff_witness :
  decode_Transaction income_of_5
  = inr (mkTransaction income (Ffin 5 0) None None a_date).
Proof.
  apply (proj2 (Transaction_accepted_iff income_of_5
                  (mkTransaction income (Ffin 5 0) None None a_date))).
  simpl. split; [right; reflexivity |]. split; [split; reflexivity |].
  split; [left; split; reflexivity |]. split; [left; split; reflexivity |].
  reflexivity.
Defined.

(** A budget for January 2024 decodes. *)
Lemma Budget_accepted_iff_witness :
  decode_Budget january_budget = inr (mkBudget 1 2024 (Ffin 100 0) None).
Proof.
  apply (proj2 (Budget_accepted_iff january_budget
                  (mkBudget 1 2024 (Ffin 100 0) None))).
  simpl. split; [split; [reflexivity | lia] |].
  split; [split; [reflexivity | lia] |].
  split; [split; reflexivity |]. left; split; reflexivity.
Defined.

(** A category with no color decodes to one with a null color. *)
Lemma Category_accepted_iff_witness :
  decode_Category rent = inr (mkCategory "Rent" None).
Proof.
  apply (proj2 (Category_accepted_iff rent (mkCategory "Rent" None))).
  simpl. split; [reflexivity |]. left; split; reflexivity.
Defined.

(** A stored income that has an [id] of its own: the conversion puts the
    store identifier there and keeps the [type]. *)
Lemma serializable_fields_witness :
  let d := <["id" := VStr "mine"]> (stored_income 7) in
  "type" ≠ "id"
  ∧ "type" ≠ "_id"
  ∧ serializable text_of d !! "id" = Some (VStr (text_of (VObjectId 7)))
  ∧ serializable text_of d !! "type" = Some (VStr "income").
Proof.
  intros d. split; [discriminate |]. split; [discriminate |].
  destruct (serializable_fields text_of d) as (_ & Hid & Hk).
  split; [exact Hid |].
  exact (Hk "type" ltac:(discriminate) ltac:(discriminate)).
Defined.

(** An empty category and [tx_type=expense]: the filter has the type only. *)
Lemma transactions_filter_built_witness :
  let q := [("category", ""); ("tx_type", "expense")] in
  decode_list_transactions decimal q = inr (50, Some "", Some "expense")
  ∧ ∃ filter_dict resp,
      GET_api_transactions decimal text_of q small_world
      = (resp, record_call (CallGet "transaction" filter_dict 50) small_world)
      ∧ filter_dict !! "category" = None
      ∧ filter_dict !! "type" = Some (VStr "expense")
      ∧ dom filter_dict ⊆ ({["category"; "type"]} : gset string).
Proof.
  intros q. split; [reflexivity |].
  exact (transactions_filter_built decimal text_of q small_world 50
           (Some "") (Some "expense") eq_refl).
Defined.

(** A month of 13 and an empty category are both in the budgets filter. *)
Lemma budgets_filter_built_witness :
  let q := [("month", "13"); ("category", "")] in
  decode_list_budgets decimal q = inr (Some 13, None, Some "", 100)
  ∧ ∃ filter_dict resp,
      GET_api_budgets decimal text_of q small_world
      = (resp, record_call (CallGet "budget" filter_dict 100) small_world)
      ∧ filter_dict !! "month" = Some (VInt 13)
      ∧ filter_dict !! "year" = None
      ∧ filter_dict !! "category" = Some (VStr "")
      ∧ dom filter_dict ⊆ ({["month"; "year"; "category"]} : gset string).
Proof.
  intros q. split; [reflexivity |].
  exact (proj2 (proj2 (proj2
           (budgets_filter_built decimal text_of q small_world (Some 13) None
              (Some "") 100 eq_refl)))).
Defined.

(** A parameter [color] changes nothing in the answer of the categories
    route. *)
Lemma only_declared_parameters_witness :
  query_get "limit" [("limit", "1")]
  = query_get "limit" [("limit", "1"); ("color", "red")]
  ∧ GET_api_categories decimal text_of [("limit", "1")] small_world
    = GET_api_categories decimal text_of [("limit", "1"); ("color", "red")]
        small_world.
Proof.
  split; [reflexivity |].
  exact (proj1 (only_declared_parameters decimal text_of [("limit", "1")]
                  [("limit", "1"); ("color", "red")] small_world) eq_refl).
Defined.

(** A server that timed out is reported with the whole text. *)
Lemma short_error_reported_whole_witness :
  db unreachable_world = Some (a_store ∅ 0 (Some "timed out"))
  ∧ (char_length "timed out" <= 80)%nat
  ∧ ∃ r,
      GET_test unreachable_world
      = (mkresponse 200 (JDiagnostics r), unreachable_world)
      ∧ resp_database r = "⚠️ Connected but Error: timed out".
Proof.
  split; [reflexivity |]. split; [simpl; lia |].
  apply (short_error_reported_whole unreachable_world
           (a_store ∅ 0 (Some "timed out")) "timed out");
    [reflexivity | reflexivity | discriminate | simpl; lia].
Defined.

(** A budget for January is created in an empty store and listed with
    [month=1]. *)
Lemma budget_round_trip_witness :
  let payload := mkBudget 1 2024 (Ffin 100 0) None in
  let q := [("month", "1")] in
  decode_Budget january_budget = inr payload
  ∧ float_finite (Ffin 100 0) = true
  ∧ stored "budget" empty_world = inr []
  ∧ write_refused "budget" (model_dump payload) empty_world = None
  ∧ decode_list_budgets decimal q = inr (Some 1, None, None, 100)
  ∧ ∃ id w1 items w2,
      POST_api_budgets text_of (finite_body january_budget) empty_world
      = (mkresponse 200 (JId id), w1)
      ∧ GET_api_budgets decimal text_of q w1
        = (mkresponse 200 (JItems items), w2)
      ∧ <["id" := VStr id]> (model_dump payload) ∈ items.
Proof.
  intros payload q.
  split; [reflexivity |]. split; [reflexivity |]. split; [reflexivity |].
  split; [reflexivity |]. split; [reflexivity |].
  apply (budget_round_trip decimal text_of (finite_body january_budget)
           payload q (Some 1) None None 100 empty_world []);
    [reflexivity | reflexivity | reflexivity | reflexivity | reflexivity
    | | | | simpl; lia | constructor].
  - by intros m [= <-].
  - intros y Hy; discriminate Hy.
  - intros c Hc; discriminate Hc.
Defined.
